(** * Omnivore-to-MD: the conversion pipeline of [lib/converter]

    A shallow embedding of [downloadImage], [processMarkdownImages],
    [convertHtmlToMarkdown] and [processZipContent], and the properties of
    the specification that they decide.

    Conventions of the embedding.
    - A JavaScript string is a [string]: a sequence of code units below 256
      (the Latin-1 range of UTF-16 code units).
    - A JavaScript object used as a map ([images], [allImages], [failures],
      a metadata record, [htmlFiles]) is an association list in the order
      [Object.entries] enumerates it; none of the keys written by the code
      is an array index, so that order is the insertion order.
    - Side effects ([emitProcessLog], [console.warn], the progress callback,
      the [imageDownloadProgress] event) are collected in a trace of
      [Event]s; the time stamp of a log entry is left out.
    - The network, the completion order of concurrent downloads, the
      built-in [decodeURIComponent] and the HTML converter
      [createMarkdownContent] are parameters. *)

From Stdlib Require Import String Ascii List Arith Lia Bool Permutation.
From Stdlib Require Import ZArith DecimalString DecimalNat DecimalZ.
Import ListNotations.
Open Scope string_scope.
Open Scope list_scope.
Open Scope nat_scope.
Set Warnings "-register-all".


(** String concatenation, the [+] and the template literals of the source. *)
Infix "+++" := String.append (right associativity, at level 60).

(** ** Characters and strings *)

Module Js.

Definition code (c : ascii) : nat := nat_of_ascii c.

Definition in_range (lo hi : nat) (c : ascii) : bool :=
  (lo <=? code c) && (code c <=? hi).

(** [\s] of a regular expression, on code units below 256. *)
Definition is_space (c : ascii) : bool :=
  in_range 9 13 c || (code c =? 32) || (code c =? 160).

(** The line terminators that [.] does not match. *)
Definition is_line_terminator (c : ascii) : bool :=
  (code c =? 10) || (code c =? 13).

(** [[a-zA-Z0-9-]] *)
Definition is_slug_char (c : ascii) : bool :=
  in_range 97 122 c || in_range 65 90 c || in_range 48 57 c || (code c =? 45).

Definition is_digit (c : ascii) : bool := in_range 48 57 c.

(** [String.prototype.toLowerCase] on one code unit below 256. *)
Definition lower_char (c : ascii) : ascii :=
  if in_range 65 90 c then ascii_of_nat (code c + 32)
  else if in_range 192 222 c && negb (code c =? 215)
       then ascii_of_nat (code c + 32)
       else c.

Fixpoint toLowerCase (s : string) : string :=
  match s with
  | EmptyString => EmptyString
  | String c r => String (lower_char c) (toLowerCase r)
  end.

Fixpoint drop (n : nat) (s : string) : string :=
  match n, s with
  | O, _ => s
  | S _, EmptyString => EmptyString
  | S k, String _ r => drop k r
  end.

(** [s.includes(sub)] *)
Fixpoint includes (sub s : string) : bool :=
  prefix sub s ||
  match s with
  | EmptyString => false
  | String _ r => includes sub r
  end.

(** [s.split(sep)] for a separator that matches one code unit. *)
Fixpoint split_by (p : ascii -> bool) (s : string) : list string :=
  match s with
  | EmptyString => [EmptyString]
  | String c r =>
      if p c then EmptyString :: split_by p r
      else match split_by p r with
           | h :: t => String c h :: t
           | [] => [String c EmptyString]
           end
  end.

Definition split (sep : ascii) (s : string) : list string :=
  split_by (Ascii.eqb sep) s.

(** [s.replace(/[^...]/g, '')] *)
Fixpoint keep (p : ascii -> bool) (s : string) : string :=
  match s with
  | EmptyString => EmptyString
  | String c r => if p c then String c (keep p r) else keep p r
  end.

(** [s.replace(/<suffix>$/, '')] for a literal suffix. *)
Fixpoint strip_suffix (suffix s : string) : string :=
  if String.eqb s suffix then EmptyString
  else match s with
       | EmptyString => EmptyString
       | String c r => String c (strip_suffix suffix r)
       end.

(** [s.replace(pattern, replacement)] for a string pattern: the first
    occurrence only.  The replacement is taken literally; the code only
    passes replacements without a dollar sign. *)
Fixpoint replace_first (pattern replacement s : string) : string :=
  if prefix pattern s then replacement +++ drop (String.length pattern) s
  else match s with
       | EmptyString => EmptyString
       | String c r => String c (replace_first pattern replacement r)
       end.

(** The template literal of a counter. *)
Definition dec (n : nat) : string := NilEmpty.string_of_uint (Nat.to_uint n).

End Js.

(** ** JSON values, as [JSON.parse] gives them to the metadata records *)

Inductive JsValue : Type :=
| VString (s : string)
| VNumber (z : Z)          (* the integral numbers; other doubles are not modelled *)
| VBool (b : bool)
| VNull
| VArray (elements : list JsValue)
| VObject (fields : list (string * JsValue)).

(** A value read from a property: [None] is [undefined]. *)
Definition JsRead := option JsValue.

Definition dec_Z (z : Z) : string := NilEmpty.string_of_int (Z.to_int z).

(** [ToString], as a template literal applies it. *)
Fixpoint ToString (v : JsValue) : string :=
  match v with
  | VString s => s
  | VNumber z => dec_Z z
  | VBool true => "true"
  | VBool false => "false"
  | VNull => "null"
  | VArray l =>
      String.concat "," (map (fun e => match e with
                                       | VNull => EmptyString
                                       | _ => ToString e
                                       end) l)
  | VObject _ => "[object Object]"
  end.

Definition template (r : JsRead) : string :=
  match r with
  | Some v => ToString v
  | None => "undefined"
  end.

(** [ToBoolean] *)
Definition truthy (r : JsRead) : bool :=
  match r with
  | None => false
  | Some (VString s) => negb (String.eqb s "")
  | Some (VNumber z) => negb (z =? 0)%Z
  | Some (VBool b) => b
  | Some VNull => false
  | Some (VArray _) => true
  | Some (VObject _) => true
  end.

(** ** Objects used as maps *)

Section Obj.
Context {V : Type}.

Definition Obj := list (string * V).

Fixpoint get (k : string) (o : Obj) : option V :=
  match o with
  | [] => None
  | (k', v) :: r => if String.eqb k' k then Some v else get k r
  end.

(** [o[k] = v]: an existing key keeps its place, a new one goes last. *)
Fixpoint set (k : string) (v : V) (o : Obj) : Obj :=
  match o with
  | [] => [(k, v)]
  | (k', v') :: r =>
      if String.eqb k' k then (k, v) :: r else (k', v') :: set k v r
  end.

Definition keys (o : Obj) : list string := map fst o.

(** [Object.assign(target, source)] *)
Definition assign (target source : Obj) : Obj :=
  fold_left (fun t kv => set (fst kv) (snd kv) t) source target.
End Obj.
Arguments Obj : clear implicits.

(** ** Types of [types.ts] and of the converter *)

(** [ArticleMetadata]: its own properties, in [Object.entries] order. *)
Definition ArticleMetadata := Obj JsValue.

Definition ArrayBuffer := list Byte.byte.

Inductive Content : Type :=
| Text (s : string)
| Binary (b : ArrayBuffer).

(** [ConversionResult]; [binary = None] when the property is left out. *)
Record ConversionResult : Type := mkResult {
  filename : string;
  content : Content;
  binary : option bool
}.

Inductive Severity : Type := info | warning | error.

Record DownloadFailure : Type := mkFailure {
  failure_url : string;
  failure_filename : string;
  failure_error : string
}.

(** What the code does to the outside world: the [processLog] event of
    [emitProcessLog], with its type and message; [console.warn], with its
    first argument; a call of the progress callback; the
    [imageDownloadProgress] event, whose [progress] the source computes as
    [(completed / total) * 100] from the two counters kept here. *)
Inductive Event : Type :=
| ProcessLog (type : Severity) (message : string)
| ConsoleWarn (message : string)
| Progress (currentFile : string) (currentImage : option string)
| ImageDownloadProgress (completed total : nat) (url : string).

(** A computation that writes to the trace and returns or throws. *)
Inductive Outcome (A : Type) : Type :=
| Returns (a : A)
| Throws (message : string).
Arguments Returns {A} a.
Arguments Throws {A} message.

Definition Eff (A : Type) : Type := list Event * Outcome A.

Definition ret {A} (a : A) : Eff A := ([], Returns a).
Definition emit (e : list Event) : Eff unit := (e, Returns tt).
Definition throw {A} (message : string) : Eff A := ([], Throws message).
Definition bind {A B} (m : Eff A) (k : A -> Eff B) : Eff B :=
  match m with
  | (t, Returns a) => let '(t', r) := k a in (t ++ t', r)
  | (t, Throws e) => (t, Throws e)
  end.

Notation "x <- m ;; k" := (bind m (fun x => k))
  (at level 61, m at next level, right associativity).
Notation "m ;;; k" := (bind m (fun _ => k))
  (at level 61, right associativity).

(** [emitProcessLog(type, message)] *)
Definition emitProcessLog (type : Severity) (message : string) : Eff unit :=
  emit [ProcessLog type message].

(** ** The network *)

(** What one [fetchWithTimeout] comes to: the fetch rejects (network error,
    or the abort after the timeout), or it resolves with a response whose
    [ok] flag is given and whose [arrayBuffer()] resolves with [Some] body
    or rejects ([None]). *)
Inductive FetchResult : Type :=
| FetchRejects
| Response (ok : bool) (body : option ArrayBuffer).

(** The three fetches of [downloadImage]. *)
Inductive Attempt : Type := ViaProxy | ViaOriginal | Direct.

(** The network during one call of [downloadImage]. *)
Definition Network := Attempt -> string -> FetchResult.

(** The result of the built-in [decodeURIComponent]. *)
Inductive Decoded : Type :=
| DecodedTo (s : string)
| URIError (message : string).

(** ** The regular expressions of the converter *)

Module Regex.

(** [.*] : up to the first line terminator. *)
Fixpoint dot_star (s : string) : string :=
  match s with
  | EmptyString => EmptyString
  | String c r => if Js.is_line_terminator c then EmptyString
                  else String c (dot_star r)
  end.

(** The tail of the proxy pattern matched at the head of [s]: a lazy run
    of any characters, a slash, and group 1, which is [http], an optional
    [s] and the rest of the line.  The lazy run stops at the first slash
    that [http] follows. *)
Fixpoint lazy_then_original (s : string) : option string :=
  match s with
  | EmptyString => None
  | String c r =>
      if Ascii.eqb c "/" && prefix "http" r then Some (dot_star r)
      else if Js.is_line_terminator c then None
           else lazy_then_original r
  end.

Definition proxy_prefix : string := "https://proxy-prod.omnivore-image-cache.app/".

(** [url.match] with the proxy pattern (the proxy prefix, then the tail
    above): group 1 of the leftmost match, [None] when nothing matches. *)
Fixpoint proxy_match (s : string) : option string :=
  match s with
  | EmptyString => None
  | String _ r =>
      if prefix proxy_prefix s then
        match lazy_then_original (Js.drop (String.length proxy_prefix) s) with
        | Some g => Some g
        | None => proxy_match r
        end
      else proxy_match r
  end.

(** [[^\s)]+], greedy: the longest run without white space or [)]. *)
Fixpoint url_run (s : string) : string :=
  match s with
  | EmptyString => EmptyString
  | String c r => if Js.is_space c || Ascii.eqb c ")" then EmptyString
                  else String c (url_run r)
  end.

(** [\]\((https?:\/\/[^\s)]+)\)] matched at the head of [s]: group 1 and the
    length of the match.  Only the longest run can be followed by [)], and
    [s?] cannot be given back, so there is one candidate. *)
Definition link_at (s : string) : option (string * nat) :=
  if prefix "](http" s then
    let r := Js.drop 6 s in
    let scheme := if prefix "s" r then "https" else "http" in
    let r' := if prefix "s" r then Js.drop 1 r else r in
    if prefix "://" r' then
      let run := url_run (Js.drop 3 r') in
      if negb (String.eqb run "")
         && prefix ")" (Js.drop (3 + String.length run) r')
      then Some (scheme +++ "://" +++ run,
                 2 + String.length scheme + 3 + String.length run + 1)
      else None
    else None
  else None.

(** [.*?] followed by the link: the shortest text without line terminator
    after which the link matches. *)
Fixpoint alt_then_link (s : string) : option (string * nat) :=
  match link_at s with
  | Some m => Some m
  | None =>
      match s with
      | EmptyString => None
      | String c r =>
          if Js.is_line_terminator c then None
          else match alt_then_link r with
               | Some (g, n) => Some (g, S n)
               | None => None
               end
      end
  end.

(** [imageRegex] matched at the head of [s]. *)
Definition image_at (s : string) : option (string * nat) :=
  if prefix "![" s then
    match alt_then_link (Js.drop 2 s) with
    | Some (g, n) => Some (g, 2 + n)
    | None => None
    end
  else None.

(** The scan of [matchAll]: [skip] code units of the last match are still
    to be passed over; otherwise a match is tried at every position. *)
Fixpoint scan (skip : nat) (s : string) : list string :=
  match s with
  | EmptyString => []
  | String _ r =>
      match skip with
      | S k => scan k r
      | O => match image_at s with
             | Some (g, n) => g :: scan (pred n) r
             | None => scan 0 r
             end
      end
  end.

(** [[...markdown.matchAll(imageRegex)]], each match by its group 1. *)
Definition matchAll_images (markdown : string) : list string := scan 0 markdown.

End Regex.

(** ** Picking the next download to settle *)

(** The [k]-th element taken out of a list. *)
Fixpoint take_out {A} (k : nat) (l : list A) : option (A * list A) :=
  match l with
  | [] => None
  | x :: r =>
      match k with
      | O => Some (x, r)
      | S k' => match take_out k' r with
                | Some (y, r') => Some (y, x :: r')
                | None => None
                end
      end
  end.

(** The order in which the pending downloads settle: [picks] names, at each
    step, which of those still pending is next. *)
Fixpoint settle_order {A} (fuel : nat) (picks : list nat) (pending : list A)
  : list A :=
  match fuel with
  | O => []
  | S fuel' =>
      match take_out (hd 0 picks mod List.length pending) pending with
      | Some (x, rest) => x :: settle_order fuel' (tl picks) rest
      | None => []
      end
  end.

Definition completion_order {A} (picks : list nat) (pending : list A) : list A :=
  settle_order (List.length pending) picks pending.

(** What surrounds the conversion of one article: the network seen by each
    of its downloads (numbered in dispatch order) and their completion
    order. *)
Record ArticleEnv : Type := mkEnv {
  network : nat -> Network;
  picks : list nat
}.

Definition quote : string := String (ascii_of_nat 34) EmptyString.
Definition nl : string := String (ascii_of_nat 10) EmptyString.

(** ** The converter *)

Record Task : Type := mkTask {
  task_match : option string;   (* [match[1]] of a body image, [None] for the thumbnail *)
  task_url : string;            (* the URL handed to [downloadImage] *)
  task_filename : string
}.

Record ImageState : Type := mkState {
  images : Obj ArrayBuffer;
  newMarkdown : string;
  failures : list DownloadFailure;
  metadata_of : option ArticleMetadata;
  completed : nat
}.

Section Converter.

(** [decodeURIComponent] is the built-in; its result may have code units
    that the strings of this development do not have, so it is taken as it
    comes.  [createMarkdownContent] is the converter imported from
    [./markdown-converter], called with the HTML text and the URL of the
    article. *)
Variable decodeURIComponent : string -> Decoded.
Variable createMarkdownContent : string -> JsRead -> string.

Definition proxy_host : string := "proxy-prod.omnivore-image-cache.app".

(** One [try { response = await fetchWithTimeout(u); if (response.ok)
    { log; return await response.arrayBuffer() } } catch { failure }];
    [Some] when the function returns from inside the [try]. *)
Definition try_fetch (net : Network) (a : Attempt) (u success : string)
    (failure : list Event) : Eff (option ArrayBuffer) :=
  match net a u with
  | FetchRejects => (failure, Returns None)
  | Response false _ => ([], Returns None)
  | Response true (Some body) => ([ProcessLog info success], Returns (Some body))
  | Response true None => (ProcessLog info success :: failure, Returns None)
  end.

Definition direct_fetch (net : Network) (url : string) : Eff (option ArrayBuffer) :=
  try_fetch net Direct url
    ("Successfully downloaded image: " +++ url)
    [ProcessLog error ("Failed to download image: " +++ url);
     ConsoleWarn ("Failed to download image: " +++ url)].

Definition downloadImage (net : Network) (url : string) : Eff (option ArrayBuffer) :=
  if Js.includes proxy_host url then
    b1 <- try_fetch net ViaProxy url
            ("Successfully downloaded image from proxy: " +++ url)
            [ProcessLog warning ("Failed to download from proxy URL: " +++ url);
             ConsoleWarn "Failed to download from proxy URL:"] ;;
    match b1 with
    | Some b => ret (Some b)
    | None =>
        match Regex.proxy_match url with
        | Some m =>
            match decodeURIComponent m with
            | URIError message => throw message
            | DecodedTo originalUrl =>
                b2 <- try_fetch net ViaOriginal originalUrl
                        ("Successfully downloaded image from original URL: "
                           +++ originalUrl)
                        [ProcessLog warning
                           ("Failed to download from original URL: " +++ originalUrl);
                         ConsoleWarn "Failed to download from original URL:"] ;;
                match b2 with
                | Some b => ret (Some b)
                | None => direct_fetch net url
                end
            end
        | None => direct_fetch net url
        end
    end
  else direct_fetch net url.

(** *** [processMarkdownImages] *)

Definition validImageExtensions : list string :=
  ["jpg"; "jpeg"; "png"; "gif"; "webp"; "svg"].

Definition list_includes (x : string) (l : list string) : bool :=
  existsb (String.eqb x) l.

Definition hash_or_query (c : ascii) : bool :=
  Ascii.eqb c "#" || Ascii.eqb c "?".

(** "Get file extension from URL or default to png" *)
Definition extension_of (url : string) : string :=
  let urlParts := Js.split "." url in
  if 1 <? List.length urlParts then
    let urlExt := hd EmptyString
                    (Js.split_by hash_or_query
                       (Js.toLowerCase (last urlParts EmptyString))) in
    if list_includes urlExt validImageExtensions then urlExt else "png"
  else "png".

Definition thumbnail_task (baseFilename thumbnailUrl : string) : Task :=
  mkTask None thumbnailUrl
    (baseFilename +++ "-thumbnail." +++ extension_of thumbnailUrl).

(** The body of the [for] loop up to the call of [downloadImage], for the
    match [m] and the value [imageCounter] has at that point. *)
Definition image_task (baseFilename : string) (imageCounter : nat) (m : string)
  : Task :=
  let imageUrl := hd EmptyString (Js.split "?" m) in
  let cleanBasename := Js.keep Js.is_slug_char baseFilename in
  mkTask (Some m) imageUrl
    (cleanBasename +++ "-" +++ Js.dec imageCounter +++ "."
       +++ extension_of imageUrl).

Fixpoint image_tasks (baseFilename : string) (imageCounter : nat)
    (matches : list string) : list Task :=
  match matches with
  | [] => []
  | m :: r => image_task baseFilename imageCounter m
                :: image_tasks baseFilename (S imageCounter) r
  end.

(** [metadata?.thumbnail] *)
Definition thumbnail_of (metadata : option ArticleMetadata) : JsRead :=
  match metadata with
  | Some m => get "thumbnail" m
  | None => None
  end.

Definition callback (progressCallback : bool) (e : Event) : list Event :=
  if progressCallback then [e] else [].

(** The [progressCallback] call that precedes the dispatch of a task. *)
Definition announce (progressCallback : bool) (t : Task) : list Event :=
  callback progressCallback
    (Progress (match task_match t with
               | None => "Processing thumbnail"
               | Some _ => "Processing images"
               end)
              (Some (task_url t))).

Definition failure_of (t : Task) (message : string) : DownloadFailure :=
  mkFailure (task_url t) (task_filename t) message.

(** The body of the [.then] handlers up to [completed++]. *)
Definition on_buffer (t : Task) (buffer : option ArrayBuffer) (st : ImageState)
  : list Event * ImageState :=
  match buffer, task_match t with
  | Some b, None =>
      ([], mkState (set (task_filename t) b (images st))
                   (newMarkdown st)
                   (failures st)
                   (option_map
                      (set "thumbnail"
                         (VString ("./attachments/" +++ task_filename t)))
                      (metadata_of st))
                   (completed st))
  | Some b, Some m =>
      ([], mkState (set (task_filename t) b (images st))
                   (Js.replace_first m ("./attachments/" +++ task_filename t)
                      (newMarkdown st))
                   (failures st)
                   (metadata_of st)
                   (completed st))
  | None, None =>
      ([ConsoleWarn ("Keeping original URL for failed thumbnail download: "
                       +++ task_url t)],
       mkState (images st) (newMarkdown st)
               (failures st ++ [failure_of t "Download failed"])
               (metadata_of st) (completed st))
  | None, Some _ =>
      ([ConsoleWarn ("Keeping original URL for failed download: "
                       +++ task_url t)],
       mkState (images st) (newMarkdown st)
               (failures st ++ [failure_of t "Download failed"])
               (metadata_of st) (completed st))
  end.

Definition count_completed (st : ImageState) : ImageState :=
  mkState (images st) (newMarkdown st) (failures st) (metadata_of st)
          (S (completed st)).

(** What happens when the download of [t] settles: the [.then] handler on
    a result, the [.catch] handler on an exception. *)
Definition settle (total : nat) (t : Task)
    (result : Outcome (option ArrayBuffer)) (st : ImageState)
  : list Event * ImageState :=
  match result with
  | Returns buffer =>
      let '(e, st1) := on_buffer t buffer st in
      let st2 := count_completed st1 in
      (e ++ [ImageDownloadProgress (completed st2) total (task_url t)], st2)
  | Throws message =>
      ([ConsoleWarn (match task_match t with
                     | None => "Failed to process thumbnail "
                     | Some _ => "Failed to process image "
                     end +++ task_url t +++ ":")],
       count_completed
         (mkState (images st) (newMarkdown st)
                  (failures st ++ [failure_of t message])
                  (metadata_of st) (completed st)))
  end.

(** One download from its first fetch to the end of its handler.  The
    log entries of downloads that are in flight together may interleave;
    the trace lists them download by download, in completion order. *)
Definition run_task (env : ArticleEnv) (total : nat) (it : nat * Task)
    (acc : list Event * ImageState) : list Event * ImageState :=
  let '(i, t) := it in
  let '(log, result) := downloadImage (network env i) (task_url t) in
  let '(e, st) := settle total t result (snd acc) in
  (fst acc ++ log ++ e, st).

Definition number {A} (l : list A) : list (nat * A) :=
  combine (seq 0 (List.length l)) l.

Definition TypeError_split : string := "thumbnailUrl.split is not a function".

Record ImageResult : Type := mkImageResult {
  result_markdown : string;
  result_images : Obj ArrayBuffer;
  result_failures : list DownloadFailure
}.

(** The downloads in dispatch order: the thumbnail, then the body
    images, numbered from [imageCounter = 1]. *)
Definition tasks_of (baseFilename : string) (thumbnail : option string)
    (matches : list string) : list Task :=
  match thumbnail with
  | Some thumbnailUrl => [thumbnail_task baseFilename thumbnailUrl]
  | None => []
  end ++ image_tasks baseFilename 1 matches.

(** From the dispatch of the tasks to the end of [Promise.all]. *)
Definition run_tasks (env : ArticleEnv) (progressCallback : bool)
    (total : nat) (tasks : list Task) (st : ImageState)
  : list Event * ImageState :=
  fold_left (fun acc it => run_task env total it acc)
            (completion_order (picks env) (number tasks))
            (flat_map (announce progressCallback) tasks, st).

(** The result goes with the metadata record as the call leaves it. *)
Definition processMarkdownImages (env : ArticleEnv)
    (markdown mdFilename : string) (metadata : option ArticleMetadata)
    (progressCallback : bool)
  : Eff (ImageResult * option ArticleMetadata) :=
  let matches := Regex.matchAll_images markdown in
  let total := List.length matches
               + (if truthy (thumbnail_of metadata) then 1 else 0) in
  let baseFilename := Js.strip_suffix ".md" mdFilename in
  let finish (thumbnail : option string) :=
    let '(trace, st) :=
      run_tasks env progressCallback total
                (tasks_of baseFilename thumbnail matches)
                (mkState [] markdown [] metadata 0) in
    (trace,
     Returns (mkImageResult (newMarkdown st) (images st) (failures st),
              metadata_of st)) in
  if truthy (thumbnail_of metadata) then
    match thumbnail_of metadata with
    | Some (VString thumbnailUrl) => finish (Some thumbnailUrl)
    | _ => throw TypeError_split
    end
  else finish None.

(** *** [convertHtmlToMarkdown] *)

Definition yaml_line (entry : string * JsValue) : string :=
  fst entry +++ ": " +++
  match snd entry with
  | VString value => quote +++ value +++ quote
  | value => ToString value
  end.

Definition yamlFrontMatter (metadata : ArticleMetadata) : string :=
  String.concat nl (map yaml_line metadata).

Definition front_matter (metadata : ArticleMetadata) : string :=
  "---" +++ nl +++ yamlFrontMatter metadata +++ nl +++ "---" +++ nl +++ nl.

(** [metadata?.slug || 'untitled'], in the template literal *)
Definition slug_or_untitled (metadata : option ArticleMetadata) : string :=
  let slug := match metadata with
              | Some m => get "slug" m
              | None => None
              end in
  if truthy slug then template slug else "untitled".

Definition convertHtmlToMarkdown (env : ArticleEnv) (htmlContent : string)
    (url : JsRead) (metadata : option ArticleMetadata)
    (progressCallback : bool)
  : Eff (ImageResult * option ArticleMetadata) :=
  emitProcessLog info ("Starting conversion for URL: " +++ template url) ;;;
  markdown <-
    match metadata with
    | Some m =>
        emitProcessLog info
          ("Added YAML front matter for: " +++ template (get "slug" m)) ;;;
        ret (front_matter m +++ createMarkdownContent htmlContent url)
    | None => ret (createMarkdownContent htmlContent url)
    end ;;
  let mdFilename := slug_or_untitled metadata +++ ".md" in
  result <- processMarkdownImages env markdown mdFilename metadata
              progressCallback ;;
  emitProcessLog info ("Completed conversion for URL: " +++ template url) ;;;
  ret result.

(** *** [processZipContent] *)

Record BatchState : Type := mkBatch {
  results : list ConversionResult;
  allImages : Obj ArrayBuffer;
  batch_failures : Obj (list DownloadFailure);
  metadata_store : list ArticleMetadata   (* the [metadata] array *)
}.

(** [m.slug === slug] *)
Definition has_slug (slug : string) (m : ArticleMetadata) : bool :=
  match get "slug" m with
  | Some (VString s) => String.eqb s slug
  | _ => false
  end.

(** [metadata.find((m) => m.slug === slug)], with the place of the record
    in the array: the record is shared, not copied. *)
Fixpoint find_metadata (slug : string) (metadata : list ArticleMetadata)
  : option (nat * ArticleMetadata) :=
  match metadata with
  | [] => None
  | m :: r =>
      if has_slug slug m then Some (0, m)
      else match find_metadata slug r with
           | Some (i, m') => Some (S i, m')
           | None => None
           end
  end.

Fixpoint write_back {A} (i : nat) (x : A) (l : list A) : list A :=
  match l, i with
  | [], _ => []
  | _ :: r, O => x :: r
  | y :: r, S j => y :: write_back j x r
  end.

(** [filename.split("/").pop() || filename], without its [.html] *)
Definition slug_of (filename : string) : string :=
  let last_part := last (Js.split "/" filename) EmptyString in
  let baseFilename := if String.eqb last_part "" then filename else last_part in
  Js.strip_suffix ".html" baseFilename.

(** One turn of the [for] loop, for the [i]-th entry of [htmlFiles]. *)
Definition process_entry (envs : nat -> ArticleEnv) (progressCallback : bool)
    (i : nat) (entry : string * string) (st : BatchState) : Eff BatchState :=
  let '(filename, content) := entry in
  let slug := slug_of filename in
  let mdFilename := slug +++ ".md" in
  emitProcessLog info ("Processing file: " +++ mdFilename) ;;;
  emit (callback progressCallback (Progress mdFilename None)) ;;;
  match find_metadata slug (metadata_store st) with
  | None =>
      emitProcessLog warning ("No metadata found for " +++ filename) ;;;
      emit [ConsoleWarn ("No metadata found for " +++ filename)] ;;;
      ret st
  | Some (j, articleMetadata) =>
      converted <- convertHtmlToMarkdown (envs i) content
                     (get "url" articleMetadata) (Some articleMetadata)
                     progressCallback ;;
      let '(r, after) := converted in
      let fileFailures := result_failures r in
      (if 0 <? List.length fileFailures
       then emitProcessLog warning
              (Js.dec (List.length fileFailures)
                 +++ " image download failures in " +++ mdFilename)
       else ret tt) ;;;
      emitProcessLog info ("Successfully processed " +++ mdFilename) ;;;
      ret (mkBatch
             (results st ++ [mkResult mdFilename (Text (result_markdown r)) None])
             (assign (allImages st) (result_images r))
             (if 0 <? List.length fileFailures
              then set mdFilename fileFailures (batch_failures st)
              else batch_failures st)
             (match after with
              | Some m => write_back j m (metadata_store st)
              | None => metadata_store st
              end))
  end.

Fixpoint process_entries (envs : nat -> ArticleEnv) (progressCallback : bool)
    (i : nat) (entries : list (string * string)) (st : BatchState)
  : Eff BatchState :=
  match entries with
  | [] => ret st
  | entry :: rest =>
      st' <- process_entry envs progressCallback i entry st ;;
      process_entries envs progressCallback (S i) rest st'
  end.

Definition image_result (entry : string * ArrayBuffer) : ConversionResult :=
  mkResult ("attachments/" +++ fst entry) (Binary (snd entry)) (Some true).

Definition processZipContent (envs : nat -> ArticleEnv)
    (htmlFiles : Obj string) (metadata : list ArticleMetadata)
    (progressCallback : bool)
  : Eff (list ConversionResult * Obj (list DownloadFailure)) :=
  emitProcessLog info
    ("Starting to process " +++ Js.dec (List.length htmlFiles) +++ " files") ;;;
  st <- process_entries envs progressCallback 0 htmlFiles
          (mkBatch [] [] [] metadata) ;;
  emitProcessLog info
    ("Completed processing all files. Total images: "
       +++ Js.dec (List.length (allImages st))) ;;;
  ret (results st ++ map image_result (allImages st), batch_failures st).

End Converter.

(** ** Notions used to state the properties *)

(** Every code unit of [s] satisfies [p]. *)
Fixpoint every (p : ascii -> bool) (s : string) : bool :=
  match s with
  | EmptyString => true
  | String c r => p c && every p r
  end.

Definition other_than (c a : ascii) : bool := negb (Ascii.eqb a c).

(** [c] does not occur in [s]. *)
Definition lacks (c : ascii) (s : string) : bool := every (other_than c) s.

Section AttemptsOfDownload.

Variable decodeURIComponent : string -> Decoded.

(** The original URL embedded in a proxy URL is there but cannot be
    decoded. *)
Definition original_undecodable (url : string) : bool :=
  Js.includes proxy_host url &&
  match Regex.proxy_match url with
  | Some m => match decodeURIComponent m with
              | URIError _ => true
              | DecodedTo _ => false
              end
  | None => false
  end.

(** The attempts of the specification that apply to [url], in order:
    through the proxy and to the embedded original when [url] is a proxy
    URL, then directly. *)
Definition applicable_attempts (url : string) : list (Attempt * string) :=
  if Js.includes proxy_host url then
    (ViaProxy, url)
      :: match Regex.proxy_match url with
         | Some m => match decodeURIComponent m with
                     | DecodedTo originalUrl => [(ViaOriginal, originalUrl)]
                     | URIError _ => []
                     end
         | None => []
         end
      ++ [(Direct, url)]
  else [(Direct, url)].

End AttemptsOfDownload.

(** The body an attempt yields: that of an HTTP-success response which can
    be read. *)
Definition body_read (net : Network) (a : Attempt * string) : option ArrayBuffer :=
  match net (fst a) (snd a) with
  | Response true (Some body) => Some body
  | _ => None
  end.

(** The first success short-circuits the remaining attempts. *)
Fixpoint first_body (net : Network) (l : list (Attempt * string))
  : option ArrayBuffer :=
  match l with
  | [] => None
  | a :: r => match body_read net a with
              | Some body => Some body
              | None => first_body net r
              end
  end.

(** The thumbnail URL that [processMarkdownImages] downloads, if any. *)
Definition thumbnail_url (metadata : option ArticleMetadata) : option string :=
  match thumbnail_of metadata with
  | Some (VString u) => if String.eqb u "" then None else Some u
  | _ => None
  end.



Definition no_space (c : ascii) : bool := negb (Js.is_space c).

Section TasksOfArticle.

Variable decodeURIComponent : string -> Decoded.
Variable createMarkdownContent : string -> JsRead -> string.

(** The downloads of the article that [convertHtmlToMarkdown] converts
    with the record [m]. *)
Definition article_tasks (htmlContent : string) (url : JsRead)
    (m : ArticleMetadata) : list Task :=
  tasks_of (Js.strip_suffix ".md" (slug_or_untitled (Some m) +++ ".md"))
           (thumbnail_url (Some m))
           (Regex.matchAll_images
              (front_matter m +++ createMarkdownContent htmlContent url)).

(** No body image whose download succeeds has its matched URL inside the
    block of text [block]. *)
Definition block_untouched (env : ArticleEnv) (block : string)
    (tasks : list Task) : Prop :=
  forall i t m b,
    nth_error tasks i = Some t ->
    task_match t = Some m ->
    snd (downloadImage decodeURIComponent (network env i) (task_url t))
      = Returns (Some b) ->
    Js.includes m block = false.

End TasksOfArticle.





(** A name that ends with a dot and one of the image extensions. *)
Definition has_image_extension (name : string) : Prop :=
  exists stem e, name = stem +++ "." +++ e /\ In e validImageExtensions.


(** The HTML input [filename] has a record in [metadata]. *)
Definition has_record (metadata : list ArticleMetadata) (filename : string) : bool :=
  match find_metadata (slug_of filename) metadata with
  | Some _ => true
  | None => false
  end.

(** What holds of the state of a batch between two entries. *)
Definition batch_ok (st : BatchState) : Prop :=
  NoDup (keys (allImages st))
  /\ (forall k, In k (keys (allImages st)) -> has_image_extension k)
  /\ (forall r, In r (results st) -> binary r = None).

Definition md_name (entry : string * string) : string :=
  slug_of (fst entry) +++ ".md".

(** The thumbnail of a record, when it counts as present, is a string. *)
Definition thumbnail_typed (m : ArticleMetadata) : Prop :=
  truthy (get "thumbnail" m) = true ->
  exists u, get "thumbnail" m = Some (VString u).

(** A character of the run of a URL: no white space, no closing
    parenthesis. *)
Definition url_char (c : ascii) : bool :=
  negb (Js.is_space c || Ascii.eqb c ")").

(** [u] is [http://] or [https://] followed by a run that is not empty. *)
Definition http_url (u : string) : Prop :=
  exists scheme run,
    u = scheme +++ "://" +++ run
    /\ (scheme = "http" \/ scheme = "https")
    /\ run <> "" /\ every url_char run = true.

(** The record that the HTML input [filename] finds in [metadata], if it
    finds one, has a well typed thumbnail. *)
Definition record_typed (metadata : list ArticleMetadata) (filename : string)
  : Prop :=
  forall j am,
    find_metadata (slug_of filename) metadata = Some (j, am) ->
    thumbnail_typed am.

(** [s.endsWith(suffix)] *)
Fixpoint ends_with (suffix s : string) : bool :=
  String.eqb s suffix
  || match s with
     | EmptyString => false
     | String _ r => ends_with suffix r
     end.

Definition no_line_terminator (c : ascii) : bool :=
  negb (Js.is_line_terminator c).

(** The counters that the [imageDownloadProgress] events of a trace carry,
    in the order of the events. *)
Fixpoint progress_counts (trace : list Event) : list nat :=
  match trace with
  | [] => []
  | ImageDownloadProgress completed _ _ :: r => completed :: progress_counts r
  | _ :: r => progress_counts r
  end.

(** ** The page, [App.svelte]: what it does with the converter *)

Module App.

(** The tail of the metadata pattern, [.*\.json$], matched at the head of
    [s]: some characters of one line, then [.json] and the end. *)
Fixpoint rest_is_json (s : string) : bool :=
  String.eqb s ".json"
  || match s with
     | EmptyString => false
     | String c r => no_line_terminator c && rest_is_json r
     end.

(** [filename.match(/^metadata_.*\.json$/)], as the test [find] makes of
    it. *)
Definition is_metadata_file (filename : string) : bool :=
  prefix "metadata_" filename && rest_is_json (Js.drop 9 filename).

(** [Object.keys(uploadedZip.files).find(...)] *)
Definition metadataFile (names : list string) : option string :=
  find is_metadata_file names.

(** The variables that the progress callback of [handleFileUpload]
    writes. *)
Record Status : Type := mkStatus {
  currentFileName : string;
  currentImageUrl : option string;
  currentMdFile : string;
  processedFiles : nat
}.

(** The callback handed to [processZipContent], called with
    [{currentFile, currentImage}]. *)
Definition on_status (st : Status) (currentFile : string)
    (currentImage : option string) : Status :=
  let st1 := mkStatus currentFile (currentImageUrl st) (currentMdFile st)
                      (processedFiles st) in
  let st2 := if ends_with ".md" currentFile
             then mkStatus (currentFileName st1) (currentImageUrl st1)
                           currentFile (S (processedFiles st1))
             else st1 in
  match currentImage with
  | Some u =>
      if String.eqb u "" then st2
      else mkStatus (currentFileName st2) (Some u) (currentMdFile st2)
                    (processedFiles st2)
  | None => st2
  end.

(** The callback along the trace of the converter: it is called at the
    [Progress] events. *)
Fixpoint follow (st : Status) (trace : list Event) : Status :=
  match trace with
  | [] => st
  | Progress currentFile currentImage :: r =>
      follow (on_status st currentFile currentImage) r
  | _ :: r => follow st r
  end.

End App.

(** ** Instances of the parameters, for the examples *)

Module Examples.

Definition hex_value (c : ascii) : option nat :=
  if Js.in_range 48 57 c then Some (Js.code c - 48)
  else if Js.in_range 65 70 c then Some (Js.code c - 55)
  else if Js.in_range 97 102 c then Some (Js.code c - 87)
  else None.

(** [decodeURIComponent] on strings whose escapes denote ASCII characters:
    a percent sign and two hexadecimal digits below 80 become that
    character, and a percent sign that two hexadecimal digits do not follow
    is a [URIError], as in the built-in.  An escape from 80 up starts a
    UTF-8 sequence; such sequences are outside this instance, which takes
    them for malformed ones. *)
Fixpoint decodeURIComponent_ascii (s : string) : Decoded :=
  match s with
  | EmptyString => DecodedTo EmptyString
  | String c r =>
      if Ascii.eqb c "%" then
        match r with
        | String h (String l r') =>
            match hex_value h, hex_value l with
            | Some a, Some b =>
                if 16 * a + b <? 128 then
                  match decodeURIComponent_ascii r' with
                  | DecodedTo d => DecodedTo (String (ascii_of_nat (16 * a + b)) d)
                  | URIError e => URIError e
                  end
                else URIError "URI malformed"
            | _, _ => URIError "URI malformed"
            end
        | _ => URIError "URI malformed"
        end
      else
        match decodeURIComponent_ascii r with
        | DecodedTo d => DecodedTo (String c d)
        | URIError e => URIError e
        end
  end.

(** The example articles are given by the Markdown that the converter
    yields for them. *)
Definition converted_as_is (htmlContent : string) (url : JsRead) : string :=
  htmlContent.

Definition bytes123 : ArrayBuffer := [Byte.x01; Byte.x02; Byte.x03].
Definition bytes456 : ArrayBuffer := [Byte.x04; Byte.x05; Byte.x06].

(** Every fetch succeeds with the same body. *)
Definition always (body : ArrayBuffer) : Network :=
  fun _ _ => Response true (Some body).

(** Every fetch is answered with a status that is not a success. *)
Definition not_found : Network := fun _ _ => Response false None.

(** Every fetch rejects. *)
Definition unreachable : Network := fun _ _ => FetchRejects.

(** Every response is a success whose body cannot be read. *)
Definition unreadable : Network := fun _ _ => Response true None.

(** The proxy is down; every other fetch succeeds with the same body. *)
Definition proxy_down (body : ArrayBuffer) : Network :=
  fun a _ => match a with
             | ViaProxy => FetchRejects
             | _ => Response true (Some body)
             end.

(** Downloads settle in dispatch order. *)
Definition in_order (net : nat -> Network) : ArticleEnv := mkEnv net [].

(** A proxy URL whose embedded original decodes, and one whose embedded
    original has a percent sign that no escape follows. *)
Definition proxied : string :=
  "https://proxy-prod.omnivore-image-cache.app/0x0/https://e.com/a%20b.png".
Definition proxied_undecodable : string :=
  "https://proxy-prod.omnivore-image-cache.app/0x0/https://e.com/50%.png".


(** An article whose only image is behind the proxy, under a URL whose
    embedded original cannot be decoded. *)
Definition one_undecodable : string := "![](" +++ proxied_undecodable +++ ")".

(** A record whose slug has an underscore and whose thumbnail URL has a
    query string with a dot in it. *)
Definition underscored : ArticleMetadata :=
  [("slug", VString "a_b");
   ("url", VString "https://site/a_b");
   ("thumbnail", VString "https://x/y.jpg?v=1.2")].


(** A record whose thumbnail is also an image of the article. *)
Definition pictured : ArticleMetadata :=
  [("slug", VString "a");
   ("url", VString "https://site/a");
   ("thumbnail", VString "https://x/y.png")].

Definition picture : string := "![](https://x/y.png)".


(** A record whose thumbnail is not an image of the article. *)
Definition covered : ArticleMetadata :=
  [("slug", VString "a");
   ("url", VString "https://site/a");
   ("thumbnail", VString "https://x/cover.jpg")].

Definition record (slug : string) : ArticleMetadata :=
  [("slug", VString slug); ("url", VString ("https://site/" +++ slug))].

(** The first article is served [bytes123], the others [bytes456]. *)
Definition served (i : nat) : ArticleEnv :=
  in_order (fun _ => always (match i with O => bytes123 | _ => bytes456 end)).

(** Two articles with one image each, and between them an input that has
    no record. *)
Definition with_orphan : Obj string :=
  [("a.html", picture); ("orphan.html", "text"); ("b.html", picture)].

(** Two articles whose slugs differ by an underscore. *)
Definition underscore_apart : Obj string :=
  [("a_b.html", picture); ("ab.html", picture)].

(** Two inputs of the same base name in two directories. *)
Definition same_base_name : Obj string :=
  [("x/a.html", "one"); ("y/a.html", "two")].

End Examples.

(** * Properties *)

(** ** The image acquirer *)

Section DownloadImage.

Variable decodeURIComponent : string -> Decoded.

Local Abbreviation download := (downloadImage decodeURIComponent).
Local Abbreviation attempts := (applicable_attempts decodeURIComponent).

Lemma try_fetch_returns net a u success failure :
  snd (try_fetch net a u success failure) = Returns (body_read net (a, u)).
Proof.
  unfold try_fetch, body_read; cbn.
  destruct (net a u) as [|[] []]; reflexivity.
Qed.

Lemma bind_returns {A B} {m : Eff A} (k : A -> Eff B) {a : A} :
  snd m = Returns a -> snd (bind m k) = snd (k a).
Proof.
  destruct m as [t r]; cbn; intros ->.
  destruct (k a); reflexivity.
Qed.

Lemma bind_throws {A B} {m : Eff A} (k : A -> Eff B) {e : string} :
  snd m = Throws e -> snd (bind m k) = Throws e.
Proof.
  destruct m as [t r]; cbn; intros ->; reflexivity.
Qed.

Lemma direct_fetch_returns net url :
  snd (direct_fetch net url) = Returns (first_body net [(Direct, url)]).
Proof.
  unfold direct_fetch; rewrite try_fetch_returns; cbn.
  destruct (body_read net (Direct, url)); reflexivity.
Qed.

(** Unless the embedded original URL cannot be decoded, the value
    returned is the first body read along the applicable attempts. *)
Lemma downloadImage_first_body net url :
  original_undecodable decodeURIComponent url = false ->
  snd (download net url) = Returns (first_body net (attempts url)).
Proof.
  unfold original_undecodable, downloadImage, applicable_attempts.
  destruct (Js.includes proxy_host url); cbv beta iota; cbn [andb].
  2: { intros _; apply direct_fetch_returns. }
  intros Hdec.
  rewrite (bind_returns _ (try_fetch_returns _ _ _ _ _)).
  cbn [first_body app].
  destruct (body_read net (ViaProxy, url)) as [b|]; [reflexivity|].
  destruct (Regex.proxy_match url) as [m|]; [|apply direct_fetch_returns].
  destruct (decodeURIComponent m) as [o|e]; [|discriminate].
  rewrite (bind_returns _ (try_fetch_returns _ _ _ _ _)).
  cbn [first_body app].
  destruct (body_read net (ViaOriginal, o)) as [b|]; [reflexivity|].
  apply direct_fetch_returns.
Qed.

(** When it cannot be decoded, the function returns only if the fetch
    through the proxy yields a body, and throws otherwise. *)
Lemma downloadImage_undecodable net url :
  original_undecodable decodeURIComponent url = true ->
  (exists b, snd (download net url) = Returns (Some b)
             /\ body_read net (ViaProxy, url) = Some b)
  \/ (exists e, snd (download net url) = Throws e
                /\ body_read net (ViaProxy, url) = None).
Proof.
  unfold original_undecodable, downloadImage.
  destruct (Js.includes proxy_host url); cbv beta iota; cbn [andb];
    [|discriminate].
  intros Hdec.
  rewrite (bind_returns _ (try_fetch_returns _ _ _ _ _)).
  destruct (body_read net (ViaProxy, url)) as [b|].
  - left; exists b; split; reflexivity.
  - right.
    destruct (Regex.proxy_match url) as [m|]; [|discriminate].
    destruct (decodeURIComponent m) as [o|e]; [discriminate|].
    exists e; split; reflexivity.
Qed.

Lemma first_body_none net l :
  first_body net l = None <-> (forall a, In a l -> body_read net a = None).
Proof.
  induction l as [|a l IH]; cbn.
  - split; [intros _ a []|reflexivity].
  - destruct (body_read net a) eqn:E.
    + split; [discriminate|].
      intros H; specialize (H a (or_introl eq_refl)); congruence.
    + rewrite IH; split.
      * intros H x [<-|Hx]; auto.
      * intros H x Hx; apply H; right; exact Hx.
Qed.

Lemma first_body_some net l b :
  first_body net l = Some b <->
  exists before a after,
    l = before ++ a :: after
    /\ body_read net a = Some b
    /\ (forall x, In x before -> body_read net x = None).
Proof.
  induction l as [|a l IH]; cbn.
  - split; [discriminate|].
    intros (before & x & after & E & _); destruct before; discriminate.
  - destruct (body_read net a) eqn:E.
    + split.
      * intros [= <-]; exists [], a, l; repeat split; [exact E|intros x []].
      * intros (before & x & after & El & Hx & Hb).
        destruct before as [|y before]; cbn in El; injection El as <- El.
        -- congruence.
        -- specialize (Hb a (or_introl eq_refl)); congruence.
    + rewrite IH; split.
      * intros (before & x & after & -> & Hx & Hb).
        exists (a :: before), x, after; repeat split; auto.
        intros y [<-|Hy]; auto.
      * intros (before & x & after & El & Hx & Hb).
        destruct before as [|y before]; cbn in El; injection El as <- El.
        -- congruence.
        -- exists before, x, after; repeat split; auto.
           intros z Hz; apply Hb; right; exact Hz.
Qed.

(** C5, as amended.  Unless the original URL embedded in a proxy URL
    cannot be decoded, [downloadImage] returns, and does not throw: it
    returns binary data exactly when some applicable attempt yields an
    HTTP-success response whose body can be read, the first such attempt
    providing the data, and it returns [null] exactly when no applicable
    attempt does. *)
Theorem downloadImage_returns_first_success net url :
  original_undecodable decodeURIComponent url = false ->
  (exists r, snd (download net url) = Returns r)
  /\ (forall b,
        snd (download net url) = Returns (Some b) <->
        exists before a after,
          attempts url = before ++ a :: after
          /\ body_read net a = Some b
          /\ (forall x, In x before -> body_read net x = None))
  /\ (snd (download net url) = Returns None <->
      forall a, In a (attempts url) -> body_read net a = None).
Proof.
  intros H; rewrite (downloadImage_first_body net url H).
  split; [eexists; reflexivity|]; split.
  - intros b; rewrite <- first_body_some; split; congruence.
  - rewrite <- first_body_none; split; congruence.
Qed.

End DownloadImage.


(** C5, witness: the proxy is down and the embedded original is served. *)
Lemma downloadImage_returns_first_success_witness :
  snd (downloadImage Examples.decodeURIComponent_ascii
         (Examples.proxy_down Examples.bytes123) Examples.proxied)
  = Returns (Some Examples.bytes123).
Proof.
  destruct (downloadImage_returns_first_success
              Examples.decodeURIComponent_ascii
              (Examples.proxy_down Examples.bytes123) Examples.proxied
              eq_refl) as (_ & H & _).
  apply H.
  exists [(ViaProxy, Examples.proxied)], (ViaOriginal, "https://e.com/a b.png"),
         [(Direct, Examples.proxied)].
  split; [reflexivity|]; split; [reflexivity|].
  intros x [<-|[]]; reflexivity.
Defined.

(** C5, counterexample.  With the proxy unreachable, a proxy URL whose
    embedded original cannot be decoded makes [downloadImage] throw; and an
    HTTP-success response whose body cannot be read gives [null]. *)
Lemma downloadImage_throws_or_misses_a_success :
  snd (downloadImage Examples.decodeURIComponent_ascii Examples.unreachable
         Examples.proxied_undecodable) = Throws "URI malformed"
  /\ Examples.unreadable Direct "https://x/y.png" = Response true None
  /\ snd (downloadImage Examples.decodeURIComponent_ascii Examples.unreadable
            "https://x/y.png") = Returns None.
Proof. repeat split. Qed.

(** C4, at the failing input: a fetch answered with a status that is not a
    success is a failed attempt, the last one of a direct download, and
    [downloadImage] returns [null] without any log entry. *)
Theorem downloadImage_http_failure_not_logged :
  Examples.not_found Direct "https://x/y.png" = Response false None
  /\ downloadImage Examples.decodeURIComponent_ascii Examples.not_found
       "https://x/y.png" = ([], Returns None).
Proof. split; reflexivity. Qed.

(** ** Strings *)

Lemma append_assoc (a b c : string) : (a +++ b) +++ c = a +++ b +++ c.
Proof. induction a as [|x a IH]; cbn; [reflexivity|now rewrite IH]. Qed.

Lemma append_empty_r (a : string) : a +++ "" = a.
Proof. induction a as [|x a IH]; cbn; [reflexivity|now rewrite IH]. Qed.

Lemma length_append (a b : string) :
  String.length (a +++ b) = String.length a + String.length b.
Proof. induction a as [|x a IH]; cbn; [reflexivity|now rewrite IH]. Qed.

Lemma every_append p (a b : string) :
  every p (a +++ b) = every p a && every p b.
Proof.
  induction a as [|x a IH]; cbn; [reflexivity|].
  now rewrite IH, andb_assoc.
Qed.

Lemma every_weaken (p q : ascii -> bool) (s : string) :
  (forall c, p c = true -> q c = true) -> every p s = true -> every q s = true.
Proof.
  intros Hpq; induction s as [|x s IH]; cbn; [reflexivity|].
  rewrite !andb_true_iff; intros [Hx Hs]; auto.
Qed.

Lemma every_keep p (s : string) : every p (Js.keep p s) = true.
Proof.
  induction s as [|x s IH]; cbn; [reflexivity|].
  destruct (p x) eqn:E; cbn; [rewrite E|]; exact IH.
Qed.

Lemma lacks_after_separator (c : ascii) (x y : string) :
  lacks c (x +++ String c y) = false.
Proof.
  unfold lacks; rewrite every_append; cbn.
  unfold other_than at 2; rewrite Ascii.eqb_refl; cbn.
  apply andb_false_r.
Qed.

(** A string is cut at the last occurrence of a separator in one way. *)
Lemma cut_at_last (c : ascii) (x y x' y' : string) :
  lacks c y = true -> lacks c y' = true ->
  x +++ String c y = x' +++ String c y' -> x = x' /\ y = y'.
Proof.
  revert x'; induction x as [|a x IH]; intros [|a' x'] Hy Hy' E; cbn in E.
  - injection E as E; auto.
  - injection E as <- E; subst y.
    rewrite lacks_after_separator in Hy; discriminate.
  - injection E as -> E; subst y'.
    rewrite lacks_after_separator in Hy'; discriminate.
  - injection E as <- E.
    destruct (IH x' Hy Hy' E) as [-> ->]; auto.
Qed.

Lemma digits_of_uint (d : Decimal.uint) :
  every Js.is_digit (NilEmpty.string_of_uint d) = true.
Proof. induction d; cbn; auto. Qed.

Lemma dec_digits (n : nat) : every Js.is_digit (Js.dec n) = true.
Proof. apply digits_of_uint. Qed.

Lemma dec_inj (n n' : nat) : Js.dec n = Js.dec n' -> n = n'.
Proof.
  unfold Js.dec; intros E.
  apply DecimalNat.Unsigned.to_uint_inj.
  pose proof (NilEmpty.usu (Nat.to_uint n)) as H.
  rewrite E, NilEmpty.usu in H; congruence.
Qed.

Ltac each_char c :=
  destruct c as [[] [] [] [] [] [] [] []]; try reflexivity; try discriminate.

Lemma digit_is_no_dash c : Js.is_digit c = true -> other_than "-" c = true.
Proof. each_char c. Qed.

Lemma digit_is_no_dot c : Js.is_digit c = true -> other_than "." c = true.
Proof. each_char c. Qed.

Lemma slug_char_is_no_dot c : Js.is_slug_char c = true -> other_than "." c = true.
Proof. each_char c. Qed.

Lemma dec_lacks_dash (n : nat) : lacks "-" (Js.dec n) = true.
Proof. exact (every_weaken _ _ _ digit_is_no_dash (dec_digits n)). Qed.

Lemma list_includes_In (x : string) (l : list string) :
  list_includes x l = true -> In x l.
Proof.
  unfold list_includes; rewrite existsb_exists.
  intros (y & Hy & E); apply String.eqb_eq in E; subst; exact Hy.
Qed.

Lemma extension_valid (url : string) : In (extension_of url) validImageExtensions.
Proof.
  unfold extension_of.
  destruct (1 <? _); [|cbn; auto].
  match goal with |- context [list_includes ?x _] =>
    destruct (list_includes x validImageExtensions) eqn:E end.
  - apply list_includes_In; exact E.
  - cbn; auto.
Qed.

Lemma valid_extension_shape (e : string) :
  In e validImageExtensions ->
  lacks "." e = true /\ lacks "-" e = true /\ e <> "md".
Proof.
  cbn; intros H.
  repeat (destruct H as [<-|H]; [repeat split; discriminate|]).
  destruct H.
Qed.

(** ** Derived file names *)

(** The three parts of a name [stem-counter.extension] are determined by
    the name. *)
Lemma name_parts (c d e c' d' e' : string) :
  lacks "." e = true -> lacks "." e' = true ->
  lacks "-" d = true -> lacks "-" d' = true ->
  c +++ "-" +++ d +++ "." +++ e = c' +++ "-" +++ d' +++ "." +++ e' ->
  c = c' /\ d = d' /\ e = e'.
Proof.
  intros He He' Hd Hd' E.
  assert (A : forall x y z, x +++ "-" +++ y +++ "." +++ z
                            = (x +++ String "-" y) +++ String "." z).
  { intros; rewrite append_assoc; reflexivity. }
  rewrite !A in E.
  destruct (cut_at_last _ _ _ _ _ He He' E) as [E1 ->].
  destruct (cut_at_last _ _ _ _ _ Hd Hd' E1) as [-> ->]; auto.
Qed.

Lemma image_task_filename (base : string) (n : nat) (m : string) :
  task_filename (image_task base n m)
  = Js.keep Js.is_slug_char base +++ "-" +++ Js.dec n +++ "."
      +++ extension_of (hd EmptyString (Js.split "?" m)).
Proof. reflexivity. Qed.

Lemma thumbnail_task_filename (base url : string) :
  task_filename (thumbnail_task base url)
  = base +++ "-" +++ "thumbnail" +++ "." +++ extension_of url.
Proof. reflexivity. Qed.

(** Two body images have the same name only with the same cleaned base
    name and the same counter. *)
Lemma image_names_equal (base base' : string) (n n' : nat) (m m' : string) :
  task_filename (image_task base n m) = task_filename (image_task base' n' m') ->
  Js.keep Js.is_slug_char base = Js.keep Js.is_slug_char base' /\ n = n'.
Proof.
  rewrite !image_task_filename; intros E.
  apply name_parts in E;
    try apply dec_lacks_dash;
    try (apply valid_extension_shape, extension_valid).
  destruct E as (E1 & E2 & _); split; [exact E1|apply dec_inj, E2].
Qed.

(** Two thumbnails have the same name only with the same base name. *)
Lemma thumbnail_names_equal (base base' url url' : string) :
  task_filename (thumbnail_task base url)
  = task_filename (thumbnail_task base' url') ->
  base = base'.
Proof.
  rewrite !thumbnail_task_filename; intros E.
  apply name_parts in E;
    try reflexivity;
    try (apply valid_extension_shape, extension_valid).
  apply E.
Qed.

(** A thumbnail and a body image never have the same name. *)
Lemma thumbnail_name_is_no_image_name (base base' url m : string) (n : nat) :
  task_filename (thumbnail_task base url) <> task_filename (image_task base' n m).
Proof.
  rewrite thumbnail_task_filename, image_task_filename; intros E.
  apply name_parts in E;
    try reflexivity;
    try apply dec_lacks_dash;
    try (apply valid_extension_shape, extension_valid).
  destruct E as (_ & E & _).
  pose proof (dec_digits n) as D; rewrite <- E in D; discriminate.
Qed.



Lemma image_tasks_In (base : string) (k : nat) (ms : list string) (t : Task) :
  In t (image_tasks base k ms) ->
  exists n m, k <= n /\ In m ms /\ t = image_task base n m.
Proof.
  revert k; induction ms as [|m ms IH]; cbn; intros k; [intros []|].
  intros [<-|H].
  - exists k, m; auto.
  - destruct (IH _ H) as (n & m' & Hn & Hm & ->).
    exists n, m'; repeat split; auto; lia.
Qed.

Lemma image_tasks_NoDup (base : string) (k : nat) (ms : list string) :
  NoDup (map task_filename (image_tasks base k ms)).
Proof.
  revert k; induction ms as [|m ms IH]; intros k; cbn; constructor; auto.
  rewrite in_map_iff; intros (t & E & Ht).
  apply image_tasks_In in Ht; destruct Ht as (n & m' & Hn & _ & ->).
  symmetry in E; apply image_names_equal in E; lia.
Qed.

(** An article's own images never collide among themselves. *)
Lemma tasks_of_NoDup (base : string) (thumbnail : option string)
    (ms : list string) :
  NoDup (map task_filename (tasks_of base thumbnail ms)).
Proof.
  unfold tasks_of; destruct thumbnail as [u|]; cbn;
    [|apply image_tasks_NoDup].
  constructor; [|apply image_tasks_NoDup].
  rewrite in_map_iff; intros (t & E & Ht).
  apply image_tasks_In in Ht; destruct Ht as (n & m & _ & _ & ->).
  symmetry in E; revert E; apply thumbnail_name_is_no_image_name.
Qed.

Lemma split_by_head (p : ascii -> bool) (s : string) :
  every (fun c => negb (p c)) (hd EmptyString (Js.split_by p s)) = true.
Proof.
  induction s as [|c s IH]; cbn; [reflexivity|].
  destruct (p c) eqn:E; [reflexivity|].
  destruct (Js.split_by p s) as [|h t]; cbn in *; rewrite E; [reflexivity|exact IH].
Qed.

(** For a body image the query string is stripped from the URL that is
    downloaded and named, and the base name is cleaned. *)
Lemma image_task_is_clean (base : string) (n : nat) (m : string) :
  task_url (image_task base n m) = hd EmptyString (Js.split "?" m)
  /\ lacks "?" (task_url (image_task base n m)) = true
  /\ every Js.is_slug_char (Js.keep Js.is_slug_char base) = true
  /\ task_filename (image_task base n m)
     = Js.keep Js.is_slug_char base +++ "-" +++ Js.dec n +++ "."
         +++ extension_of (task_url (image_task base n m)).
Proof.
  repeat split; [|apply every_keep].
  cbn [task_url image_task]; unfold lacks, Js.split.
  eapply every_weaken; [|apply split_by_head].
  intros c; unfold other_than; rewrite Ascii.eqb_sym; auto.
Qed.

(** ** Completion order *)

Lemma take_out_Permutation {A} (k : nat) (l : list A) (x : A) (r : list A) :
  take_out k l = Some (x, r) -> Permutation l (x :: r).
Proof.
  revert k x r; induction l as [|y l IH]; intros [|k] x r; cbn; try discriminate.
  - intros [= -> ->]; reflexivity.
  - destruct (take_out k l) as [[z r']|] eqn:E; [|discriminate].
    intros [= -> <-].
    rewrite (IH _ _ _ E); apply perm_swap.
Qed.

Lemma take_out_some {A} (k : nat) (l : list A) :
  k < List.length l -> exists x r, take_out k l = Some (x, r).
Proof.
  revert k; induction l as [|y l IH]; intros [|k] H; cbn in *; try lia.
  - eauto.
  - destruct (IH k) as (x & r & ->); [lia|eauto].
Qed.

Lemma settle_order_Permutation {A} (fuel : nat) (picks : list nat)
    (pending : list A) :
  fuel = List.length pending ->
  Permutation (settle_order fuel picks pending) pending.
Proof.
  revert picks pending; induction fuel as [|fuel IH]; intros picks pending E.
  - destruct pending; [reflexivity|discriminate].
  - cbn [settle_order].
    destruct (take_out_some (hd 0 picks mod List.length pending) pending)
      as (x & r & Ht).
    { apply Nat.mod_upper_bound; rewrite <- E; discriminate. }
    rewrite Ht.
    pose proof (take_out_Permutation _ _ _ _ Ht) as P.
    rewrite P; constructor; apply IH.
    apply Permutation_length in P; cbn in P; lia.
Qed.

(** Whatever the picks, every pending download settles, and settles once. *)
Lemma completion_order_Permutation {A} (picks : list nat) (pending : list A) :
  Permutation (completion_order picks pending) pending.
Proof. apply settle_order_Permutation; reflexivity. Qed.

Lemma number_In {A} (l : list A) (i : nat) (x : A) :
  In (i, x) (number l) <-> nth_error l i = Some x.
Proof.
  unfold number.
  assert (G : forall k, In (i, x) (combine (seq k (List.length l)) l)
                        <-> k <= i /\ nth_error l (i - k) = Some x).
  { induction l as [|y l IH]; intros k; cbn.
    - split; [intros []|]. intros [_ H]; destruct (i - k); discriminate.
    - rewrite IH; split.
      + intros [[= <- <-]|[H1 H2]].
        * rewrite Nat.sub_diag; auto.
        * split; [lia|]. replace (i - k) with (S (i - S k)) by lia; exact H2.
      + intros [H1 H2]. destruct (i - k) as [|j] eqn:E.
        * left; injection H2 as <-; f_equal; lia.
        * right; split; [lia|]. replace (i - S k) with j by lia; exact H2. }
  rewrite G, Nat.sub_0_r; split; [tauto|split; [lia|assumption]].
Qed.

(** ** Objects *)

Section ObjFacts.

Context {V : Type}.
Implicit Types (o : Obj V) (k : string) (v : V).

Lemma keys_set o k v k' :
  In k' (keys (set k v o)) <-> k' = k \/ In k' (keys o).
Proof.
  induction o as [|[k0 v0] o IH]; cbn.
  - intuition congruence.
  - destruct (String.eqb_spec k0 k) as [->|N]; cbn; [|rewrite IH]; intuition.
Qed.

Lemma get_set_same o k v : get k (set k v o) = Some v.
Proof.
  induction o as [|[k0 v0] o IH]; cbn.
  - now rewrite String.eqb_refl.
  - destruct (String.eqb_spec k0 k) as [->|N]; cbn.
    + now rewrite String.eqb_refl.
    + apply String.eqb_neq in N; now rewrite N.
Qed.

Lemma get_set_other o k v k' : k' <> k -> get k' (set k v o) = get k' o.
Proof.
  intros N; induction o as [|[k0 v0] o IH]; cbn.
  - destruct (String.eqb_spec k k'); [congruence|reflexivity].
  - destruct (String.eqb_spec k0 k) as [->|N0]; cbn.
    + destruct (String.eqb_spec k k'); [congruence|reflexivity].
    + now rewrite IH.
Qed.

Lemma NoDup_keys_set o k v : NoDup (keys o) -> NoDup (keys (set k v o)).
Proof.
  induction o as [|[k0 v0] o IH]; cbn; intros H.
  - constructor; [intros []|constructor].
  - inversion H as [|? ? Hn Ho]; subst.
    destruct (String.eqb_spec k0 k) as [->|N]; cbn.
    + constructor; assumption.
    + constructor; [|auto].
      change (~ In k0 (keys (set k v o))); rewrite keys_set; intuition.
Qed.

Lemma keys_assign (target source : Obj V) k :
  In k (keys (assign target source)) <-> In k (keys target) \/ In k (keys source).
Proof.
  unfold assign; revert target.
  induction source as [|[k0 v0] s IH]; intros target; cbn [fold_left].
  - cbn; tauto.
  - rewrite IH, keys_set; cbn; intuition.
Qed.

Lemma NoDup_keys_assign (target source : Obj V) :
  NoDup (keys target) -> NoDup (keys (assign target source)).
Proof.
  unfold assign; revert target.
  induction source as [|[k0 v0] s IH]; intros target H; cbn [fold_left];
    [exact H|].
  apply IH, NoDup_keys_set, H.
Qed.

End ObjFacts.

(** ** One article: the downloads and their handlers *)

Section Article.

Variable decodeURIComponent : string -> Decoded.
Variable env : ArticleEnv.
Variable total : nat.

Local Abbreviation download := (downloadImage decodeURIComponent).
Local Abbreviation outcome i t := (snd (download (network env i) (task_url t))).
Local Abbreviation go :=
  (fun acc it => run_task decodeURIComponent env total it acc).

Lemma run_task_state i t acc :
  snd (run_task decodeURIComponent env total (i, t) acc)
  = snd (settle total t (outcome i t) (snd acc)).
Proof.
  unfold run_task.
  destruct (download (network env i) (task_url t)) as [log res]; cbn [snd].
  destruct (settle total t res (snd acc)); reflexivity.
Qed.


Lemma settle_images t res st :
  images (snd (settle total t res st))
  = match res with
    | Returns (Some b) => set (task_filename t) b (images st)
    | _ => images st
    end.
Proof.
  unfold settle, on_buffer.
  destruct res as [[b|]|e], (task_match t); reflexivity.
Qed.

Lemma settle_failures t res st :
  failures (snd (settle total t res st))
  = match res with
    | Returns (Some b) => failures st
    | Returns None => failures st ++ [failure_of t "Download failed"]
    | Throws e => failures st ++ [failure_of t e]
    end.
Proof.
  unfold settle, on_buffer.
  destruct res as [[b|]|e], (task_match t); reflexivity.
Qed.

Lemma settle_completed t res st :
  completed (snd (settle total t res st)) = S (completed st).
Proof.
  unfold settle, on_buffer.
  destruct res as [[b|]|e], (task_match t); reflexivity.
Qed.

Lemma settle_newMarkdown t res st :
  newMarkdown (snd (settle total t res st))
  = match res, task_match t with
    | Returns (Some b), Some m =>
        Js.replace_first m ("./attachments/" +++ task_filename t) (newMarkdown st)
    | _, _ => newMarkdown st
    end.
Proof.
  unfold settle, on_buffer.
  destruct res as [[b|]|e], (task_match t); reflexivity.
Qed.

Lemma settle_metadata t res st :
  metadata_of (snd (settle total t res st))
  = match res, task_match t with
    | Returns (Some b), None =>
        option_map (set "thumbnail"
                      (VString ("./attachments/" +++ task_filename t)))
                   (metadata_of st)
    | _, _ => metadata_of st
    end.
Proof.
  unfold settle, on_buffer.
  destruct res as [[b|]|e], (task_match t); reflexivity.
Qed.

Lemma fold_images_keys l acc k :
  In k (keys (images (snd (fold_left go l acc))))
  <-> In k (keys (images (snd acc)))
      \/ exists i t b, In (i, t) l /\ task_filename t = k
                       /\ outcome i t = Returns (Some b).
Proof.
  revert acc; induction l as [|[i t] l IH]; intros acc; cbn [fold_left].
  - split; [auto|]. intros [H|(i & t & b & [] & _)]; exact H.
  - rewrite IH, run_task_state, settle_images.
    destruct (outcome i t) as [[b|]|e] eqn:E.
    + rewrite keys_set. split.
      * intros [[->|H]|(i' & t' & b' & H & Hk & Ho)]; auto.
        -- right; exists i, t, b; cbn; auto.
        -- right; exists i', t', b'; cbn; auto.
      * intros [H|(i' & t' & b' & [[= <- <-]|H] & Hk & Ho)]; auto.
        right; exists i', t', b'; auto.
    + split.
      * intros [H|(i' & t' & b' & H & Hk & Ho)]; auto.
        right; exists i', t', b'; cbn; auto.
      * intros [H|(i' & t' & b' & [[= <- <-]|H] & Hk & Ho)]; auto;
          [congruence|].
        right; exists i', t', b'; auto.
    + split.
      * intros [H|(i' & t' & b' & H & Hk & Ho)]; auto.
        right; exists i', t', b'; cbn; auto.
      * intros [H|(i' & t' & b' & [[= <- <-]|H] & Hk & Ho)]; auto;
          [congruence|].
        right; exists i', t', b'; auto.
Qed.

Lemma fold_images_NoDup l acc :
  NoDup (keys (images (snd acc))) ->
  NoDup (keys (images (snd (fold_left go l acc)))).
Proof.
  revert acc; induction l as [|[i t] l IH]; intros acc H; cbn [fold_left];
    [exact H|].
  apply IH; rewrite run_task_state, settle_images.
  destruct (outcome i t) as [[b|]|e]; auto using NoDup_keys_set.
Qed.


Lemma fold_failures_origin l acc f :
  In f (failures (snd (fold_left go l acc))) ->
  In f (failures (snd acc))
  \/ exists i t, In (i, t) l
       /\ (outcome i t = Returns None /\ f = failure_of t "Download failed"
           \/ exists e, outcome i t = Throws e /\ f = failure_of t e).
Proof.
  revert acc; induction l as [|[i t] l IH]; intros acc; cbn [fold_left];
    [auto|].
  intros H; apply IH in H; destruct H as [H|(i' & t' & H & Ho)].
  - rewrite run_task_state, settle_failures in H.
    destruct (outcome i t) as [[b|]|e] eqn:E; auto;
      apply in_app_or in H; destruct H as [H|[<-|[]]]; auto;
      right; exists i, t; split; cbn; eauto.
  - right; exists i', t'; split; cbn; auto.
Qed.

Lemma fold_completed l acc :
  completed (snd (fold_left go l acc)) = completed (snd acc) + List.length l.
Proof.
  revert acc; induction l as [|[i t] l IH]; intros acc; cbn [fold_left];
    [cbn; lia|].
  rewrite IH, run_task_state, settle_completed; cbn; lia.
Qed.

End Article.

Section ProcessMarkdownImages.

Variable decodeURIComponent : string -> Decoded.

Local Abbreviation download := (downloadImage decodeURIComponent).
Local Abbreviation process := (processMarkdownImages decodeURIComponent).

(** What a call that returns has done. *)
Lemma processMarkdownImages_returns env markdown mdFilename metadata cb tr r after :
  process env markdown mdFilename metadata cb = (tr, Returns (r, after)) ->
  let ms := Regex.matchAll_images markdown in
  let final :=
    run_tasks decodeURIComponent env cb
      (List.length ms + (if truthy (thumbnail_of metadata) then 1 else 0))
      (tasks_of (Js.strip_suffix ".md" mdFilename) (thumbnail_url metadata) ms)
      (mkState [] markdown [] metadata 0) in
  tr = fst final
  /\ r = mkImageResult (newMarkdown (snd final)) (images (snd final))
                       (failures (snd final))
  /\ after = metadata_of (snd final).
Proof.
  unfold processMarkdownImages, thumbnail_url.
  destruct (thumbnail_of metadata) as [[u|z|b| |l|f]|]; cbn [truthy];
    try (destruct (Z.eqb z 0)); try (destruct b); cbn [negb];
    try (destruct (String.eqb u "")); cbn [negb];
    try discriminate;
    match goal with
    | |- context [run_tasks ?d ?e ?c ?n ?t ?s] =>
        destruct (run_tasks d e c n t s) as [tr' st'] eqn:E
    end; cbn [fst snd]; intros [= <- <- <-]; auto.
Qed.

(** A call throws exactly on a thumbnail that is truthy and not a string. *)
Lemma processMarkdownImages_throws env markdown mdFilename metadata cb :
  (exists tr r, process env markdown mdFilename metadata cb = (tr, Returns r))
  <-> (truthy (thumbnail_of metadata) = true ->
       exists u, thumbnail_of metadata = Some (VString u)).
Proof.
  unfold processMarkdownImages.
  destruct (thumbnail_of metadata) as [[u|z|b| |l|f]|]; cbn [truthy];
    try (destruct (Z.eqb z 0)); try (destruct b); cbn [negb];
    try (destruct (String.eqb u "")); cbn [negb];
    try match goal with
    | |- context [run_tasks ?d ?e ?c ?n ?t ?s] =>
        destruct (run_tasks d e c n t s) as [tr' st'] eqn:E
    end;
    (split;
     [ intros (tr & r & H) T; try discriminate; eauto
     | intros H; try (eexists; eexists; reflexivity);
       destruct (H eq_refl) as (u' & Hu); discriminate ]).
Qed.




Lemma bind_trace {A B} (m : Eff A) (k : A -> Eff B) :
  fst (bind m k)
  = fst m ++ match snd m with
             | Returns a => fst (k a)
             | Throws _ => []
             end.
Proof.
  destruct m as [t [a|e]]; cbn; [|now rewrite app_nil_r].
  destruct (k a); reflexivity.
Qed.




Lemma settle_events total t res st ev :
  In ev (fst (settle total t res st)) ->
  (exists message, ev = ConsoleWarn message)
  \/ (ev = ImageDownloadProgress (S (completed st)) total (task_url t)
      /\ exists buffer, res = Returns buffer).
Proof.
  unfold settle, on_buffer.
  destruct res as [[b|]|e], (task_match t); cbn; intuition (subst; eauto).
Qed.

(** A download that settles with a value, data or [null], is counted and
    reported. *)
Lemma resolved_download_reports_progress total t buffer st :
  completed (snd (settle total t (Returns buffer) st)) = S (completed st)
  /\ exists e,
       fst (settle total t (Returns buffer) st)
       = e ++ [ImageDownloadProgress (S (completed st)) total (task_url t)].
Proof.
  unfold settle, on_buffer.
  destruct buffer as [b|], (task_match t); cbn; split; try reflexivity;
    first [ exists []; reflexivity | eexists [_]; reflexivity ].
Qed.

(** A download that settles with an exception is counted, and that is
    all. *)
Lemma thrown_download_is_counted_only total t message st c tot u :
  completed (snd (settle total t (Throws message) st)) = S (completed st)
  /\ ~ In (ImageDownloadProgress c tot u)
         (fst (settle total t (Throws message) st)).
Proof.
  split; [reflexivity|].
  intros H; apply settle_events in H.
  destruct H as [(? & H)|[_ (? & H)]]; discriminate.
Qed.




End ProcessMarkdownImages.



(** C3, at the failing input.  The only image of the article is behind
    the proxy, the proxy is unreachable and the embedded original cannot be
    decoded: the download settles by an exception, the [.catch] handler
    records the failure and counts the download as completed, and the
    trace ends without any [imageDownloadProgress] event. *)
Theorem thrown_download_reports_no_progress :
  processMarkdownImages Examples.decodeURIComponent_ascii
    (Examples.in_order (fun _ => Examples.unreachable))
    Examples.one_undecodable "a.md" None true
  = ([Progress "Processing images" (Some Examples.proxied_undecodable);
      ProcessLog warning
        ("Failed to download from proxy URL: " +++ Examples.proxied_undecodable);
      ConsoleWarn "Failed to download from proxy URL:";
      ConsoleWarn
        ("Failed to process image " +++ Examples.proxied_undecodable +++ ":")],
     Returns
       (mkImageResult Examples.one_undecodable []
          [mkFailure Examples.proxied_undecodable "a-1.png" "URI malformed"],
        None)).
Proof. reflexivity. Qed.

(** C2, at the failing input.  For the thumbnail, the URL is downloaded
    with its query string, the extension is looked for after the last dot
    of the whole URL, which here is inside the query string, and the slug
    keeps its underscore: the file is [a_b-thumbnail.png].  Stripping the
    query string and cleaning the slug, as is done for a body image, gives
    the extension [jpg] and the base name [ab]. *)
Theorem thumbnail_name_keeps_query_and_slug :
  processMarkdownImages Examples.decodeURIComponent_ascii
    (Examples.in_order (fun _ => Examples.always Examples.bytes123))
    "text" "a_b.md" (Some Examples.underscored) true
  = ([Progress "Processing thumbnail" (Some "https://x/y.jpg?v=1.2");
      ProcessLog info "Successfully downloaded image: https://x/y.jpg?v=1.2";
      ImageDownloadProgress 1 1 "https://x/y.jpg?v=1.2"],
     Returns
       (mkImageResult "text" [("a_b-thumbnail.png", Examples.bytes123)] [],
        Some (set "thumbnail" (VString "./attachments/a_b-thumbnail.png")
                Examples.underscored)))
  /\ extension_of (hd EmptyString (Js.split "?" "https://x/y.jpg?v=1.2")) = "jpg"
  /\ Js.keep Js.is_slug_char "a_b" = "ab".
Proof. repeat split. Qed.


(** ** What the image pattern captures *)

Lemma url_run_no_space (s : string) : every no_space (Regex.url_run s) = true.
Proof.
  induction s as [|c s IH]; cbn; [reflexivity|].
  destruct (Js.is_space c) eqn:E; cbn; [reflexivity|].
  destruct (Ascii.eqb c ")"); cbn; [reflexivity|].
  unfold no_space at 1; rewrite E; exact IH.
Qed.

Lemma link_at_no_space (s g : string) (n : nat) :
  Regex.link_at s = Some (g, n) -> every no_space g = true.
Proof.
  unfold Regex.link_at.
  destruct (prefix "](http" s); [|discriminate].
  destruct (prefix "://" _); [|discriminate].
  destruct (negb _ && _); [|discriminate].
  intros [= <- _].
  destruct (prefix "s" _); cbn; apply url_run_no_space.
Qed.

Lemma alt_then_link_no_space (s g : string) (n : nat) :
  Regex.alt_then_link s = Some (g, n) -> every no_space g = true.
Proof.
  revert n; induction s as [|c s IH]; intros n; cbn [Regex.alt_then_link].
  - destruct (Regex.link_at "") as [[g' n']|] eqn:E; [|discriminate].
    intros [= <- _]; eapply link_at_no_space, E.
  - destruct (Regex.link_at (String c s)) as [[g' n']|] eqn:E.
    + intros [= <- _]; eapply link_at_no_space, E.
    + destruct (Js.is_line_terminator c); [discriminate|].
      destruct (Regex.alt_then_link s) as [[g' n']|]; [|discriminate].
      intros [= <- _]; eapply IH; reflexivity.
Qed.

Lemma image_at_no_space (s g : string) (n : nat) :
  Regex.image_at s = Some (g, n) -> every no_space g = true.
Proof.
  unfold Regex.image_at.
  destruct (prefix "![" s); [|discriminate].
  destruct (Regex.alt_then_link _) as [[g' n']|] eqn:E; [|discriminate].
  intros [= <- _]; eapply alt_then_link_no_space, E.
Qed.

(** A matched URL has no white space in it. *)
Lemma matches_no_space (markdown u : string) :
  In u (Regex.matchAll_images markdown) -> every no_space u = true.
Proof.
  unfold Regex.matchAll_images; generalize 0 as skip.
  induction markdown as [|c s IH]; intros skip; cbn [Regex.scan]; [intros []|].
  destruct skip as [|k]; [|apply IH].
  destruct (Regex.image_at (String c s)) as [[g n]|] eqn:E; [|apply IH].
  intros [<-|H]; [eapply image_at_no_space, E|eapply IH, H].
Qed.

Lemma no_space_is_no_newline c : no_space c = true -> other_than "010" c = true.
Proof. each_char c. Qed.

(** ** What the image pattern matches *)

Lemma url_run_stops (run rest : string) :
  every url_char run = true ->
  Regex.url_run (run +++ String ")" rest) = run.
Proof.
  induction run as [|c run IH]; cbn; [reflexivity|].
  unfold url_char at 1; intros H; apply andb_true_iff in H; destruct H as [Hc H].
  apply negb_true_iff in Hc; rewrite Hc, IH; auto.
Qed.

Lemma drop_append (a b : string) : Js.drop (String.length a) (a +++ b) = b.
Proof. induction a; cbn; auto. Qed.

Lemma scan_skips (a rest : string) :
  Regex.scan (String.length a) (a +++ rest) = Regex.scan 0 rest.
Proof. induction a; cbn; auto. Qed.

Lemma prefix_nil (s : string) : prefix "" s = true.
Proof. destruct s; reflexivity. Qed.

Lemma link_at_reference (scheme run rest : string) :
  scheme = "http" \/ scheme = "https" ->
  run <> "" -> every url_char run = true ->
  Regex.link_at ("](" +++ scheme +++ "://" +++ run +++ ")" +++ rest)
  = Some (scheme +++ "://" +++ run,
          String.length ("](" +++ scheme +++ "://" +++ run +++ ")")).
Proof.
  intros Hs Hne Hrun.
  assert (N : negb (String.eqb run "") = true).
  { destruct run; [congruence|reflexivity]. }
  destruct Hs as [-> | ->]; unfold Regex.link_at; cbn;
    rewrite prefix_nil, (url_run_stops run rest Hrun), N, drop_append; cbn;
    rewrite prefix_nil; do 2 f_equal;
    rewrite length_append; cbn; lia.
Qed.

(** An image reference with an empty alternative text is matched where it
    stands, with its URL as group 1 and for its whole length. *)
Lemma image_at_reference (u rest : string) :
  http_url u ->
  Regex.image_at ("![](" +++ u +++ ")" +++ rest)
  = Some (u, String.length ("![](" +++ u +++ ")")).
Proof.
  intros (scheme & run & -> & Hs & Hne & Hrun).
  pose proof (link_at_reference scheme run rest Hs Hne Hrun) as L.
  unfold Regex.image_at.
  change (prefix "![" ("![](" +++ (scheme +++ "://" +++ run) +++ ")" +++ rest))
    with (prefix "" ("](" +++ (scheme +++ "://" +++ run) +++ ")" +++ rest)).
  rewrite prefix_nil.
  change (Js.drop 2 ("![](" +++ (scheme +++ "://" +++ run) +++ ")" +++ rest))
    with ("](" +++ (scheme +++ "://" +++ run) +++ ")" +++ rest).
  replace ("](" +++ (scheme +++ "://" +++ run) +++ ")" +++ rest)
    with ("](" +++ scheme +++ "://" +++ run +++ ")" +++ rest)
    by (cbn; now rewrite !append_assoc).
  assert (A : forall s m, Regex.link_at s = Some m ->
                          Regex.alt_then_link s = Some m).
  { intros [|c s] m E; cbn [Regex.alt_then_link]; rewrite E; reflexivity. }
  rewrite (A _ _ L); do 2 f_equal.
  cbn; rewrite !length_append; cbn; rewrite !length_append; cbn; lia.
Qed.

(** Such a reference is the first match of the text it begins, and the scan
    goes on behind it. *)
Lemma matchAll_reference (u rest : string) :
  http_url u ->
  Regex.matchAll_images ("![](" +++ u +++ ")" +++ rest)
  = u :: Regex.matchAll_images rest.
Proof.
  intros H; unfold Regex.matchAll_images.
  pose proof (image_at_reference u rest H) as I.
  change ("![](" +++ u +++ ")" +++ rest)
    with (String "!" ("[](" +++ u +++ ")" +++ rest)) in I |- *.
  cbn [Regex.scan]; rewrite I; f_equal.
  replace ("[](" +++ u +++ ")" +++ rest) with (("[](" +++ u +++ ")") +++ rest)
    by (cbn; now rewrite !append_assoc).
  apply scan_skips.
Qed.

(** The same URL in two references is matched twice. *)
Lemma same_url_twice_matches_twice (u : string) :
  http_url u ->
  Regex.matchAll_images ("![](" +++ u +++ ")" +++ "![](" +++ u +++ ")")
  = [u; u].
Proof.
  intros H; rewrite (matchAll_reference u _ H).
  change ("![](" +++ u +++ ")") with ("![](" +++ u +++ ")" +++ "").
  now rewrite (matchAll_reference u "" H).
Qed.

(** ** Rewriting behind a block of text *)

Lemma prefix_append_cases (u F B : string) :
  prefix u (F +++ B) = true -> prefix u F = true \/ exists w, u = F +++ w.
Proof.
  revert u; induction F as [|a F IH]; intros u H.
  - right; exists u; reflexivity.
  - destruct u as [|b u]; [left; reflexivity|].
    cbn in H |- *.
    destruct (ascii_dec b a) as [->|N]; [|discriminate].
    destruct (IH u H) as [P|(w & ->)]; [auto|right; exists w; reflexivity].
Qed.

Lemma includes_empty (s : string) : Js.includes "" s = true.
Proof. destruct s; reflexivity. Qed.

(** When [u] does not occur in a block that ends with a character [u]
    does not have, the first occurrence of [u] in a text that begins with
    the block is behind the block. *)
Lemma replace_first_behind (c : ascii) (u r G B : string) :
  lacks c u = true ->
  Js.includes u (G +++ String c "") = false ->
  Js.replace_first u r ((G +++ String c "") +++ B)
  = (G +++ String c "") +++ Js.replace_first u r B.
Proof.
  intros Hu; induction G as [|a G IH]; intros Hi.
  - cbn [append].
    destruct u as [|b u]; [rewrite includes_empty in Hi; discriminate|].
    cbn [Js.replace_first prefix].
    destruct (ascii_dec b c) as [->|N]; [|reflexivity].
    unfold lacks in Hu; cbn in Hu; unfold other_than in Hu.
    rewrite Ascii.eqb_refl in Hu; discriminate.
  - cbn [append]; cbn [append Js.includes] in Hi.
    apply orb_false_iff in Hi; destruct Hi as [Hp Hi].
    cbn [Js.replace_first].
    destruct (prefix u (String a ((G +++ String c "") +++ B))) eqn:P.
    + change (String a ((G +++ String c "") +++ B))
        with ((String a (G +++ String c "")) +++ B) in P.
      apply prefix_append_cases in P; destruct P as [P|(w & ->)].
      * rewrite P in Hp; discriminate.
      * replace (String a (G +++ String c "") +++ w)
          with (String a G +++ String c w) in Hu
          by (cbn; now rewrite append_assoc).
        rewrite lacks_after_separator in Hu; discriminate.
    + now rewrite IH.
Qed.


(** ** The text in front of the rewritten Markdown *)

Section FrontMatter.

Variable decodeURIComponent : string -> Decoded.
Variable createMarkdownContent : string -> JsRead -> string.

Local Abbreviation download := (downloadImage decodeURIComponent).
Local Abbreviation process := (processMarkdownImages decodeURIComponent).
Local Abbreviation convert :=
  (convertHtmlToMarkdown decodeURIComponent createMarkdownContent).

Lemma front_matter_ends_with_newline (m : ArticleMetadata) :
  exists G, front_matter m = G +++ String "010" "".
Proof.
  exists ("---" +++ nl +++ yamlFrontMatter m +++ nl +++ "---" +++ nl).
  unfold front_matter; rewrite !append_assoc; reflexivity.
Qed.

Lemma fold_newMarkdown_behind env total (G : string) l acc B :
  newMarkdown (snd acc) = (G +++ String "010" "") +++ B ->
  (forall i t m b,
     In (i, t) l -> task_match t = Some m ->
     snd (download (network env i) (task_url t)) = Returns (Some b) ->
     Js.includes m (G +++ String "010" "") = false
     /\ every no_space m = true) ->
  exists B',
    newMarkdown
      (snd (fold_left
              (fun acc it => run_task decodeURIComponent env total it acc)
              l acc))
    = (G +++ String "010" "") +++ B'.
Proof.
  revert acc B; induction l as [|[i t] l IH]; intros acc B H Hl;
    cbn [fold_left]; [eauto|].
  assert (Hl' : forall i' t' m b,
             In (i', t') l -> task_match t' = Some m ->
             snd (download (network env i') (task_url t')) = Returns (Some b) ->
             Js.includes m (G +++ String "010" "") = false
             /\ every no_space m = true).
  { intros; eapply Hl; eauto; right; assumption. }
  destruct (snd (download (network env i) (task_url t))) as [[b|]|e] eqn:E;
    destruct (task_match t) as [m|] eqn:M;
    try (apply (IH _ B); [|exact Hl'];
         rewrite run_task_state, settle_newMarkdown, E, ?M; exact H).
  destruct (Hl i t m b (or_introl eq_refl) M E) as [Hi Hs].
  apply (IH _ (Js.replace_first m ("./attachments/" +++ task_filename t) B));
    [|exact Hl'].
  rewrite run_task_state, settle_newMarkdown, E, M, H.
  apply replace_first_behind; [|exact Hi].
  exact (every_weaken _ _ _ no_space_is_no_newline Hs).
Qed.

Lemma tasks_of_match (base : string) thumbnail (ms : list string) t m :
  In t (tasks_of base thumbnail ms) -> task_match t = Some m -> In m ms.
Proof.
  unfold tasks_of; intros H M; apply in_app_or in H; destruct H as [H|H].
  - destruct thumbnail; [|destruct H].
    destruct H as [<-|[]]; discriminate.
  - apply image_tasks_In in H; destruct H as (n & m' & _ & Hm & ->).
    cbn in M; congruence.
Qed.

(** The text stays behind a block that no successful rewrite touches. *)
Lemma processMarkdownImages_behind env (block body mdFilename : string)
    metadata cb tr r after :
  (exists G, block = G +++ String "010" "") ->
  process env (block +++ body) mdFilename metadata cb = (tr, Returns (r, after)) ->
  block_untouched decodeURIComponent env block
    (tasks_of (Js.strip_suffix ".md" mdFilename) (thumbnail_url metadata)
       (Regex.matchAll_images (block +++ body))) ->
  exists rest, result_markdown r = block +++ rest.
Proof.
  intros (G & ->) H U.
  apply processMarkdownImages_returns in H; cbn zeta in H.
  destruct H as (_ & -> & _); cbn [result_markdown]; unfold run_tasks.
  eapply fold_newMarkdown_behind; [reflexivity|].
  intros i t m b Hi M E.
  apply (Permutation_in _ (completion_order_Permutation (picks env) _)) in Hi.
  apply number_In in Hi; split; [eapply U; eauto|].
  eapply matches_no_space, tasks_of_match; [eapply nth_error_In, Hi|exact M].
Qed.

Lemma convert_returns env htmlContent url m cb tr r after :
  convert env htmlContent url (Some m) cb = (tr, Returns (r, after)) ->
  exists tr',
    process env (front_matter m +++ createMarkdownContent htmlContent url)
      (slug_or_untitled (Some m) +++ ".md") (Some m) cb
    = (tr', Returns (r, after)).
Proof.
  unfold convertHtmlToMarkdown, bind, emitProcessLog, emit, ret.
  destruct (processMarkdownImages _ _ _ _ _ _) as [t [[r' a']|e]];
    cbn; intros [= _ <- <-]; eauto.
Qed.

(** The front-matter block stays at the head of the output as long as no
    successful rewrite touches it. *)
Lemma convert_keeps_front_matter env htmlContent url m cb tr r after :
  convert env htmlContent url (Some m) cb = (tr, Returns (r, after)) ->
  block_untouched decodeURIComponent env (front_matter m)
    (article_tasks createMarkdownContent htmlContent url m) ->
  exists rest, result_markdown r = front_matter m +++ rest.
Proof.
  intros H U; apply convert_returns in H; destruct H as (tr' & H).
  eapply processMarkdownImages_behind;
    [apply front_matter_ends_with_newline|exact H|exact U].
Qed.

End FrontMatter.

(** ** The thumbnail *)

Lemma set_set {V} (o : Obj V) (k : string) (v : V) :
  set k v (set k v o) = set k v o.
Proof.
  induction o as [|[k0 v0] o IH]; cbn.
  - now rewrite String.eqb_refl.
  - destruct (String.eqb_spec k0 k) as [->|N]; cbn.
    + now rewrite String.eqb_refl.
    + apply String.eqb_neq in N; rewrite N, IH; reflexivity.
Qed.

Lemma tasks_of_thumbnail (base : string) thumbnail (ms : list string) i t :
  nth_error (tasks_of base thumbnail ms) i = Some t ->
  task_match t = None ->
  exists u, thumbnail = Some u /\ i = 0 /\ t = thumbnail_task base u.
Proof.
  unfold tasks_of; intros H M.
  assert (B : forall j, nth_error (image_tasks base 1 ms) j <> Some t).
  { intros j Hj; apply nth_error_In, image_tasks_In in Hj.
    destruct Hj as (n & m & _ & _ & ->); discriminate. }
  destruct thumbnail as [u|]; cbn [app] in H; [|destruct (B _ H)].
  destruct i as [|i]; cbn in H; [|destruct (B _ H)].
  injection H as <-; eauto.
Qed.

Section Thumbnail.

Variable decodeURIComponent : string -> Decoded.
Variable env : ArticleEnv.
Variable total : nat.
Variable name : string.

Local Abbreviation download := (downloadImage decodeURIComponent).
Local Abbreviation outcome i t := (snd (download (network env i) (task_url t))).
Local Abbreviation go :=
  (fun acc it => run_task decodeURIComponent env total it acc).
Local Abbreviation local_path := (VString ("./attachments/" +++ name)).

(** Only a thumbnail whose download succeeds changes the record. *)
Lemma fold_metadata_unchanged l acc :
  (forall i t b, In (i, t) l -> task_match t = None ->
                 outcome i t <> Returns (Some b)) ->
  metadata_of (snd (fold_left go l acc)) = metadata_of (snd acc).
Proof.
  revert acc; induction l as [|[i t] l IH]; intros acc H; cbn [fold_left];
    [reflexivity|].
  rewrite (IH _ (fun a b c d => H a b c (or_intror d))).
  rewrite run_task_state, settle_metadata.
  destruct (outcome i t) as [[b|]|e] eqn:E; try reflexivity.
  destruct (task_match t) eqn:M; [reflexivity|].
  destruct (H i t b (or_introl eq_refl) M E).
Qed.

Lemma fold_metadata_stays_set l acc M :
  (forall i t, In (i, t) l -> task_match t = None -> task_filename t = name) ->
  metadata_of (snd acc) = option_map (set "thumbnail" local_path) M ->
  metadata_of (snd (fold_left go l acc))
  = option_map (set "thumbnail" local_path) M.
Proof.
  revert acc; induction l as [|[i t] l IH]; intros acc H A; cbn [fold_left];
    [exact A|].
  apply IH; [exact (fun a b c => H a b (or_intror c))|].
  rewrite run_task_state, settle_metadata.
  destruct (outcome i t) as [[b|]|e]; try exact A.
  destruct (task_match t) eqn:T; [exact A|].
  rewrite (H i t (or_introl eq_refl) T), A.
  destruct M; cbn; [rewrite set_set|]; reflexivity.
Qed.

Lemma fold_metadata_set l acc i t b :
  (forall i t, In (i, t) l -> task_match t = None -> task_filename t = name) ->
  (forall j t' b', In (j, t') l -> task_match t' = None ->
                   outcome j t' = Returns (Some b') -> j = i) ->
  NoDup (map fst l) ->
  In (i, t) l -> task_match t = None -> outcome i t = Returns (Some b) ->
  metadata_of (snd (fold_left go l acc))
  = option_map (set "thumbnail" local_path) (metadata_of (snd acc)).
Proof.
  revert acc; induction l as [|[j t'] l IH]; intros acc H U N Hi T E;
    [destruct Hi|].
  cbn [fold_left]; cbn [map fst] in N; inversion N as [|? ? Nj Nl]; subst.
  destruct Hi as [[= -> ->]|Hi].
  - apply fold_metadata_stays_set;
      [exact (fun a b c => H a b (or_intror c))|].
    rewrite run_task_state, settle_metadata, E, T.
    rewrite (H i t (or_introl eq_refl) T); reflexivity.
  - rewrite (IH _ (fun a b c => H a b (or_intror c))
                  (fun a b c d => U a b c (or_intror d)) Nl Hi T E).
    f_equal; rewrite run_task_state, settle_metadata.
    destruct (outcome j t') as [[b'|]|e] eqn:E'; try reflexivity.
    destruct (task_match t') eqn:T'; [reflexivity|].
    pose proof (U j t' b' (or_introl eq_refl) T' E') as ->.
    destruct Nj; apply (in_map fst) in Hi; exact Hi.
Qed.

End Thumbnail.

Lemma number_fst {A} (l : list A) : map fst (number l) = seq 0 (List.length l).
Proof.
  unfold number; generalize 0 as k.
  induction l as [|x l IH]; intros k; cbn; [reflexivity|now rewrite IH].
Qed.

Lemma completion_order_NoDup {A} (picks : list nat) (l : list A) :
  NoDup (map fst (completion_order picks (number l))).
Proof.
  eapply Permutation_NoDup.
  - apply Permutation_map, Permutation_sym, completion_order_Permutation.
  - rewrite number_fst; apply seq_NoDup.
Qed.

Lemma get_In {V} (o : Obj V) (k : string) (v : V) :
  get k o = Some v -> In (k, v) o.
Proof.
  induction o as [|[k0 v0] o IH]; cbn; [discriminate|].
  destruct (String.eqb_spec k0 k) as [->|N]; [intros [= ->]|]; auto.
Qed.

Lemma thumbnail_url_some metadata u :
  thumbnail_url metadata = Some u ->
  thumbnail_of metadata = Some (VString u) /\ u <> "".
Proof.
  unfold thumbnail_url.
  destruct (thumbnail_of metadata) as [[s| | | | |]|]; try discriminate.
  destruct (String.eqb_spec s ""); [discriminate|].
  intros [= ->]; auto.
Qed.

Section FrontMatterClaims.

Variable decodeURIComponent : string -> Decoded.
Variable createMarkdownContent : string -> JsRead -> string.

Local Abbreviation download := (downloadImage decodeURIComponent).
Local Abbreviation convert :=
  (convertHtmlToMarkdown decodeURIComponent createMarkdownContent).


(** C9, as amended.  For an article whose metadata carries a thumbnail,
    the handler of the thumbnail download leaves the Markdown text as it
    is, whatever the download comes to, and a successful download changes
    nothing of the record but its [thumbnail] field, set to the local
    path.  The front-matter block of the output, serialized before any
    download, therefore shows the thumbnail field with the remote URL,
    provided no body image whose download succeeds has its matched URL
    inside the block (the rewriting of that image replaces the first
    occurrence of its URL, which is then in the block). *)
Theorem thumbnail_fetch_leaves_markdown env htmlContent url m cb tr r after u :
  convert env htmlContent url (Some m) cb = (tr, Returns (r, after)) ->
  thumbnail_url (Some m) = Some u ->
  block_untouched decodeURIComponent env (front_matter m)
    (article_tasks createMarkdownContent htmlContent url m) ->
  let t := thumbnail_task
             (Js.strip_suffix ".md" (slug_or_untitled (Some m) +++ ".md")) u in
  (forall total result st,
     newMarkdown (snd (settle total t result st)) = newMarkdown st)
  /\ after = Some (match snd (download (network env 0) u) with
                   | Returns (Some _) =>
                       set "thumbnail"
                           (VString ("./attachments/" +++ task_filename t)) m
                   | _ => m
                   end)
  /\ (exists rest, result_markdown r = front_matter m +++ rest)
  /\ In ("thumbnail: " +++ quote +++ u +++ quote) (map yaml_line m).
Proof.
  intros H Hu U t; split; [|split; [|split]].
  - intros total result st; rewrite settle_newMarkdown.
    destruct result as [[b|]|e]; reflexivity.
  - apply convert_returns in H; destruct H as (tr' & H).
    apply processMarkdownImages_returns in H; cbn zeta in H.
    destruct H as (_ & _ & ->); unfold run_tasks.
    rewrite Hu.
    set (tasks := tasks_of _ (Some u) _).
    assert (T0 : forall i t', In (i, t') (completion_order (picks env) (number tasks)) ->
                              task_match t' = None -> i = 0 /\ t' = t).
    { intros i t' Hi M.
      apply (Permutation_in _ (completion_order_Permutation (picks env) _)) in Hi.
      apply number_In in Hi; unfold tasks in Hi.
      destruct (tasks_of_thumbnail _ _ _ _ _ Hi M) as (u' & [= <-] & -> & ->).
      auto. }
    assert (I0 : In (0, t) (completion_order (picks env) (number tasks))).
    { apply (Permutation_in _
               (Permutation_sym (completion_order_Permutation (picks env) _))).
      apply number_In; reflexivity. }
    destruct (snd (download (network env 0) u)) as [[b|]|e] eqn:E.
    + erewrite (fold_metadata_set decodeURIComponent env _ (task_filename t)
                  _ _ 0 t b); [reflexivity| | | |exact I0|reflexivity|exact E].
      * intros i t' Hi M; destruct (T0 i t' Hi M) as [_ ->]; reflexivity.
      * intros j t' b' Hj M _; apply (T0 j t' Hj M).
      * apply completion_order_NoDup.
    + rewrite fold_metadata_unchanged; [reflexivity|].
      intros i t' b Hi M; destruct (T0 i t' Hi M) as [-> ->].
      intros E'; change (task_url t) with u in E'; congruence.
    + rewrite fold_metadata_unchanged; [reflexivity|].
      intros i t' b Hi M; destruct (T0 i t' Hi M) as [-> ->].
      intros E'; change (task_url t) with u in E'; congruence.
  - exact (convert_keeps_front_matter _ _ _ _ _ _ _ _ _ _ H U).
  - apply thumbnail_url_some in Hu; destruct Hu as [Hu _].
    apply get_In in Hu.
    apply (in_map yaml_line) in Hu; exact Hu.
Qed.

End FrontMatterClaims.


Ltac nth_task H :=
  match type of H with
  | nth_error ?l _ = _ =>
      let l' := eval vm_compute in l in change l with l' in H
  end;
  repeat match type of H with
         | nth_error _ ?i = Some _ =>
             is_var i; destruct i; cbn [nth_error] in H
         end.



(** C9, witness: the thumbnail is not an image of the article; both
    downloads succeed. *)
Lemma thumbnail_fetch_leaves_markdown_witness :
  exists tr r after rest,
    convertHtmlToMarkdown Examples.decodeURIComponent_ascii
      Examples.converted_as_is
      (Examples.in_order (fun _ => Examples.always Examples.bytes123))
      Examples.picture (get "url" Examples.covered) (Some Examples.covered) true
    = (tr, Returns (r, after))
    /\ result_markdown r = front_matter Examples.covered +++ rest
    /\ In ("thumbnail: " +++ quote +++ "https://x/cover.jpg" +++ quote)
          (map yaml_line Examples.covered)
    /\ after = Some (set "thumbnail"
                       (VString "./attachments/a-thumbnail.jpg")
                       Examples.covered).
Proof.
  assert (U : block_untouched Examples.decodeURIComponent_ascii
                (Examples.in_order (fun _ => Examples.always Examples.bytes123))
                (front_matter Examples.covered)
                (article_tasks Examples.converted_as_is Examples.picture
                   (get "url" Examples.covered) Examples.covered)).
  { intros i t m b Hi M E; nth_task Hi; try discriminate;
      injection Hi as <-; try discriminate; injection M as <-; reflexivity. }
  destruct (thumbnail_fetch_leaves_markdown
              Examples.decodeURIComponent_ascii Examples.converted_as_is
              (Examples.in_order (fun _ => Examples.always Examples.bytes123))
              Examples.picture (get "url" Examples.covered)
              Examples.covered true _ _ _ "https://x/cover.jpg"
              eq_refl eq_refl U) as (_ & H2 & (rest & H3) & H4).
  do 4 eexists; split; [reflexivity|]; split; [exact H3|]; split; [exact H4|].
  exact H2.
Defined.

(** C9, counterexample.  The thumbnail is also an image of the article and
    every download succeeds: the rewriting of the body image replaces the
    first occurrence of the URL, which is the one in the front matter, and
    the thumbnail field of the output shows a local path, not the remote
    URL. *)
Lemma thumbnail_line_can_be_rewritten :
  exists tr r after,
    convertHtmlToMarkdown Examples.decodeURIComponent_ascii
      Examples.converted_as_is
      (Examples.in_order (fun _ => Examples.always Examples.bytes123))
      Examples.picture (get "url" Examples.pictured) (Some Examples.pictured) true
    = (tr, Returns (r, after))
    /\ keys (result_images r) = ["a-thumbnail.png"; "a-1.png"]
    /\ result_markdown r
       = "---" +++ nl +++ "slug: " +++ quote +++ "a" +++ quote +++ nl
           +++ "url: " +++ quote +++ "https://site/a" +++ quote +++ nl
           +++ "thumbnail: " +++ quote +++ "./attachments/a-1.png" +++ quote
           +++ nl +++ "---" +++ nl +++ nl +++ Examples.picture
    /\ Js.includes "https://x/y.png" (front_matter Examples.pictured) = true
    /\ Js.includes ("thumbnail: " +++ quote +++ "https://x/y.png" +++ quote)
         (result_markdown r) = false.
Proof.
  do 3 eexists; split; [reflexivity|]; repeat split.
Qed.


(** ** What the conversion of one article returns *)

Lemma task_has_image_extension (base : string) thumbnail (ms : list string) t :
  In t (tasks_of base thumbnail ms) -> has_image_extension (task_filename t).
Proof.
  unfold tasks_of; intros H; apply in_app_or in H; destruct H as [H|H].
  - destruct thumbnail as [u|]; [|destruct H].
    destruct H as [<-|[]].
    exists (base +++ "-thumbnail"), (extension_of u); split.
    + cbn [task_filename thumbnail_task]; rewrite !append_assoc; reflexivity.
    + apply extension_valid.
  - apply image_tasks_In in H; destruct H as (n & m & _ & _ & ->).
    exists (Js.keep Js.is_slug_char base +++ "-" +++ Js.dec n),
           (extension_of (hd EmptyString (Js.split "?" m))); split.
    + rewrite image_task_filename, !append_assoc; reflexivity.
    + apply extension_valid.
Qed.

Section ArticleResult.

Variable decodeURIComponent : string -> Decoded.
Variable createMarkdownContent : string -> JsRead -> string.

Local Abbreviation download := (downloadImage decodeURIComponent).
Local Abbreviation process := (processMarkdownImages decodeURIComponent).
Local Abbreviation convert :=
  (convertHtmlToMarkdown decodeURIComponent createMarkdownContent).

Lemma fold_metadata_slug env total l acc :
  option_map (get "slug")
    (metadata_of
       (snd (fold_left
               (fun acc it => run_task decodeURIComponent env total it acc)
               l acc)))
  = option_map (get "slug") (metadata_of (snd acc)).
Proof.
  revert acc; induction l as [|[i t] l IH]; intros acc; cbn [fold_left];
    [reflexivity|].
  rewrite IH, run_task_state, settle_metadata.
  destruct (snd (download (network env i) (task_url t))) as [[b|]|e];
    try reflexivity.
  destruct (task_match t); [reflexivity|].
  destruct (metadata_of (snd acc)) as [m|]; cbn; [|reflexivity].
  now rewrite get_set_other by discriminate.
Qed.

(** The images of the result are the files of the downloads that
    succeeded. *)
Lemma process_images env markdown mdFilename metadata cb tr r after k :
  process env markdown mdFilename metadata cb = (tr, Returns (r, after)) ->
  In k (keys (result_images r))
  <-> exists i t b,
        nth_error (tasks_of (Js.strip_suffix ".md" mdFilename)
                     (thumbnail_url metadata)
                     (Regex.matchAll_images markdown)) i = Some t
        /\ task_filename t = k
        /\ snd (download (network env i) (task_url t)) = Returns (Some b).
Proof.
  intros H; apply processMarkdownImages_returns in H; cbn zeta in H.
  destruct H as (_ & -> & _); cbn [result_images]; unfold run_tasks.
  rewrite fold_images_keys; cbn [snd images keys map In].
  split.
  - intros [[]|(i & t & b & Hi & Hk & Ho)].
    exists i, t, b; repeat split; auto.
    apply number_In.
    apply (Permutation_in _ (completion_order_Permutation (picks env) _)), Hi.
  - intros (i & t & b & Hi & Hk & Ho); right.
    exists i, t, b; repeat split; auto.
    apply (Permutation_in _
             (Permutation_sym (completion_order_Permutation (picks env) _))).
    apply number_In, Hi.
Qed.

Lemma process_images_NoDup env markdown mdFilename metadata cb tr r after :
  process env markdown mdFilename metadata cb = (tr, Returns (r, after)) ->
  NoDup (keys (result_images r)).
Proof.
  intros H; apply processMarkdownImages_returns in H; cbn zeta in H.
  destruct H as (_ & -> & _); cbn [result_images]; unfold run_tasks.
  apply fold_images_NoDup; constructor.
Qed.

Lemma process_metadata_slug env markdown mdFilename metadata cb tr r after :
  process env markdown mdFilename metadata cb = (tr, Returns (r, after)) ->
  option_map (get "slug") after = option_map (get "slug") metadata.
Proof.
  intros H; apply processMarkdownImages_returns in H; cbn zeta in H.
  destruct H as (_ & _ & ->); unfold run_tasks.
  now rewrite fold_metadata_slug.
Qed.

(** The same for [convertHtmlToMarkdown]. *)
Lemma convert_images env htmlContent url m cb tr r after k :
  convert env htmlContent url (Some m) cb = (tr, Returns (r, after)) ->
  In k (keys (result_images r))
  <-> exists i t b,
        nth_error (article_tasks createMarkdownContent htmlContent url m) i
          = Some t
        /\ task_filename t = k
        /\ snd (download (network env i) (task_url t)) = Returns (Some b).
Proof.
  intros H; apply convert_returns in H; destruct H as (tr' & H).
  exact (process_images _ _ _ _ _ _ _ _ k H).
Qed.

Lemma convert_images_NoDup env htmlContent url m cb tr r after :
  convert env htmlContent url (Some m) cb = (tr, Returns (r, after)) ->
  NoDup (keys (result_images r)).
Proof.
  intros H; apply convert_returns in H; destruct H as (tr' & H).
  exact (process_images_NoDup _ _ _ _ _ _ _ _ H).
Qed.

Lemma convert_images_extension env htmlContent url m cb tr r after k :
  convert env htmlContent url (Some m) cb = (tr, Returns (r, after)) ->
  In k (keys (result_images r)) -> has_image_extension k.
Proof.
  intros H Hk; apply (convert_images _ _ _ _ _ _ _ _ k H) in Hk.
  destruct Hk as (i & t & b & Hi & <- & _).
  eapply task_has_image_extension, nth_error_In, Hi.
Qed.

Lemma convert_metadata_slug env htmlContent url m cb tr r after :
  convert env htmlContent url (Some m) cb = (tr, Returns (r, after)) ->
  exists m', after = Some m' /\ get "slug" m' = get "slug" m.
Proof.
  intros H; apply convert_returns in H; destruct H as (tr' & H).
  apply process_metadata_slug in H.
  destruct after as [m'|]; [|discriminate].
  exists m'; split; [reflexivity|]; cbn in H; congruence.
Qed.

End ArticleResult.

(** ** Lists of names *)

Lemma NoDup_map_injective {A B} (f : A -> B) (l : list A) :
  (forall x y, f x = f y -> x = y) -> NoDup l -> NoDup (map f l).
Proof.
  intros Inj; induction 1 as [|x l X N IH]; cbn; constructor; auto.
  rewrite in_map_iff; intros (y & E & Y); apply Inj in E; subst; auto.
Qed.

Lemma NoDup_map_filter {K E} (keep : E -> bool) (name : E -> K) (es : list E) :
  NoDup (map name es) -> NoDup (map name (filter keep es)).
Proof.
  intros N; induction es as [|e es IH]; cbn; [constructor|].
  inversion N as [|? ? X N']; subst.
  destruct (keep e); cbn; [constructor|]; auto.
  rewrite in_map_iff; intros (y & E1 & Y); apply filter_In in Y.
  apply X; rewrite <- E1; apply in_map, Y.
Qed.

Lemma append_inj_l (a x y : string) : a +++ x = a +++ y -> x = y.
Proof. induction a; cbn; [auto|]; intros [= E]; auto. Qed.

Lemma md_suffix_inj (x y : string) : x +++ ".md" = y +++ ".md" -> x = y.
Proof. intros E; apply (cut_at_last "." x "md" y "md") in E; tauto. Qed.

(** The name of a Markdown document is never that of an attachment. *)
Lemma md_name_is_no_attachment (slug k : string) :
  has_image_extension k -> slug +++ ".md" <> "attachments/" +++ k.
Proof.
  intros (stem & e & -> & He) E.
  apply valid_extension_shape in He; destruct He as (Hd & _ & Hm).
  rewrite <- append_assoc in E.
  apply (cut_at_last "." slug "md" ("attachments/" +++ stem) e) in E; auto.
  destruct E as [_ E]; congruence.
Qed.

Lemma attachment_names (o : Obj ArrayBuffer) :
  map filename (map image_result o)
  = map (fun k => "attachments/" +++ k) (keys o).
Proof. unfold keys; rewrite !map_map; reflexivity. Qed.




(** ** The batch *)

Section Batch.

Variable decodeURIComponent : string -> Decoded.
Variable createMarkdownContent : string -> JsRead -> string.
Variable envs : nat -> ArticleEnv.
Variable cb : bool.

Local Abbreviation download := (downloadImage decodeURIComponent).
Local Abbreviation convert :=
  (convertHtmlToMarkdown decodeURIComponent createMarkdownContent).
Local Abbreviation entry_step :=
  (process_entry decodeURIComponent createMarkdownContent envs cb).
Local Abbreviation entries_loop :=
  (process_entries decodeURIComponent createMarkdownContent envs cb).

(** The log of an entry without a record. *)
Lemma process_entry_orphan i filename content st :
  find_metadata (slug_of filename) (metadata_store st) = None ->
  entry_step i (filename, content) st
  = (ProcessLog info ("Processing file: " +++ slug_of filename +++ ".md")
       :: callback cb (Progress (slug_of filename +++ ".md") None)
       ++ [ProcessLog warning ("No metadata found for " +++ filename);
           ConsoleWarn ("No metadata found for " +++ filename)],
     Returns st).
Proof.
  intros H; unfold process_entry; rewrite H; cbn.
  reflexivity.
Qed.

(** The state after an entry with a record. *)
Lemma process_entry_matched i filename content st j am :
  find_metadata (slug_of filename) (metadata_store st) = Some (j, am) ->
  snd (entry_step i (filename, content) st)
  = match snd (convert (envs i) content (get "url" am) (Some am) cb) with
    | Returns (r, after) =>
        Returns
          (mkBatch
             (results st
                ++ [mkResult (slug_of filename +++ ".md")
                             (Text (result_markdown r)) None])
             (assign (allImages st) (result_images r))
             (if 0 <? List.length (result_failures r)
              then set (slug_of filename +++ ".md") (result_failures r)
                       (batch_failures st)
              else batch_failures st)
             (match after with
              | Some m => write_back j m (metadata_store st)
              | None => metadata_store st
              end))
    | Throws e => Throws e
    end.
Proof.
  intros H; unfold process_entry; rewrite H.
  rewrite !(bind_returns _ (a := tt)) by reflexivity.
  destruct (convert (envs i) content (get "url" am) (Some am) cb)
    as [trc [[r after]|e]]; [|reflexivity].
  rewrite (bind_returns _ (a := (r, after))) by reflexivity.
  cbv beta iota zeta; cbn [snd].
  destruct (0 <? List.length (result_failures r));
    rewrite !(bind_returns _ (a := tt)) by reflexivity; reflexivity.
Qed.

Lemma process_entries_app i (l1 l2 : list (string * string)) st :
  snd (entries_loop i (l1 ++ l2) st)
  = match snd (entries_loop i l1 st) with
    | Returns st1 => snd (entries_loop (i + List.length l1) l2 st1)
    | Throws e => Throws e
    end.
Proof.
  revert i st; induction l1 as [|e l1 IH]; intros i st; cbn [app process_entries].
  - cbn; now rewrite Nat.add_0_r.
  - destruct (entry_step i e st) as [t [st1|err]] eqn:E.
    + rewrite !(bind_returns _ (a := st1)) by reflexivity.
      rewrite IH; cbn [List.length]; now rewrite Nat.add_succ_r.
    + rewrite !(bind_throws _ (e := err)) by reflexivity; reflexivity.
Qed.

Lemma find_metadata_nth slug (store : list ArticleMetadata) j am :
  find_metadata slug store = Some (j, am) -> nth_error store j = Some am.
Proof.
  revert j; induction store as [|m store IH]; intros j; cbn; [discriminate|].
  destruct (has_slug slug m); [intros [= <- <-]; reflexivity|].
  destruct (find_metadata slug store) as [[j' m']|]; [|discriminate].
  intros [= <- <-]; cbn; apply IH; reflexivity.
Qed.

Lemma has_record_slugs (store store' : list ArticleMetadata) f :
  map (get "slug") store = map (get "slug") store' ->
  has_record store f = has_record store' f.
Proof.
  unfold has_record; generalize (slug_of f) as slug; intros slug.
  revert store'; induction store as [|m store IH]; intros [|m' store'];
    cbn; try discriminate; [reflexivity|].
  intros [= E1 E2]; unfold has_slug; rewrite E1.
  destruct (get "slug" m') as [[s| | | | |]|];
    try destruct (String.eqb s slug); try reflexivity;
    specialize (IH store' E2);
    destruct (find_metadata slug store) as [[? ?]|],
             (find_metadata slug store') as [[? ?]|];
    try reflexivity; discriminate.
Qed.

Lemma write_back_slugs (store : list ArticleMetadata) j am m' :
  nth_error store j = Some am ->
  get "slug" m' = get "slug" am ->
  map (get "slug") (write_back j m' store) = map (get "slug") store.
Proof.
  revert j; induction store as [|m store IH]; intros [|j]; cbn;
    try discriminate.
  - intros [= ->] ->; reflexivity.
  - intros H E; now rewrite (IH j H E).
Qed.

(** What a turn of the loop that returns has done. *)
Lemma entry_step_returns i f c st st' :
  snd (entry_step i (f, c) st) = Returns st' ->
  (has_record (metadata_store st) f = false /\ st' = st)
  \/ (has_record (metadata_store st) f = true
      /\ exists j am trc r after,
           find_metadata (slug_of f) (metadata_store st) = Some (j, am)
           /\ convert (envs i) c (get "url" am) (Some am) cb
              = (trc, Returns (r, after))
           /\ results st'
              = results st ++ [mkResult (md_name (f, c)) (Text (result_markdown r)) None]
           /\ allImages st' = assign (allImages st) (result_images r)
           /\ batch_failures st'
              = (if 0 <? List.length (result_failures r)
                 then set (md_name (f, c)) (result_failures r) (batch_failures st)
                 else batch_failures st)
           /\ map (get "slug") (metadata_store st')
              = map (get "slug") (metadata_store st)).
Proof.
  unfold has_record.
  destruct (find_metadata (slug_of f) (metadata_store st)) as [[j am]|] eqn:F.
  - rewrite (process_entry_matched _ _ _ _ _ _ F).
    destruct (convert (envs i) c (get "url" am) (Some am) cb)
      as [trc [[r after]|e]] eqn:C; cbn [snd]; [|discriminate].
    intros [= <-]; right; split; [reflexivity|].
    exists j, am, trc, r, after; cbn; repeat split; auto.
    destruct (convert_metadata_slug _ _ _ _ _ _ _ _ _ _ C) as (m' & -> & E).
    eapply write_back_slugs; [eapply find_metadata_nth, F|exact E].
  - rewrite (process_entry_orphan _ _ _ _ F); cbn [snd].
    intros [= <-]; left; auto.
Qed.

Lemma entry_step_slugs i f c st st' :
  snd (entry_step i (f, c) st) = Returns st' ->
  map (get "slug") (metadata_store st') = map (get "slug") (metadata_store st).
Proof.
  intros H; apply entry_step_returns in H.
  destruct H as [[_ ->]|(_ & j & am & trc & r & after & _ & _ & _ & _ & _ & H)];
    auto.
Qed.

Lemma entry_step_ok i f c st st' :
  snd (entry_step i (f, c) st) = Returns st' -> batch_ok st -> batch_ok st'.
Proof.
  intros H (N & X & B); apply entry_step_returns in H.
  destruct H as [[_ ->]|(_ & j & am & trc & r & after & _ & C & R & A & _ & _)];
    [repeat split; auto|].
  repeat split.
  - rewrite A; apply NoDup_keys_assign, N.
  - intros k; rewrite A, keys_assign; intros [H|H]; [auto|].
    eapply convert_images_extension; eauto.
  - intros x; rewrite R; intros H; apply in_app_or in H.
    destruct H as [H|[<-|[]]]; auto.
Qed.

Lemma entries_loop_returns_cons i e l st st' :
  snd (entries_loop i (e :: l) st) = Returns st' ->
  exists st1, snd (entry_step i e st) = Returns st1
              /\ snd (entries_loop (S i) l st1) = Returns st'.
Proof.
  cbn [process_entries].
  destruct (entry_step i e st) as [t [st1|err]] eqn:E.
  - rewrite (bind_returns _ (a := st1)) by reflexivity.
    intros H; exists st1; split; [reflexivity|exact H].
  - rewrite (bind_throws _ (e := err)) by reflexivity; discriminate.
Qed.

Lemma entries_loop_slugs i l st st' :
  snd (entries_loop i l st) = Returns st' ->
  map (get "slug") (metadata_store st') = map (get "slug") (metadata_store st).
Proof.
  revert i st; induction l as [|[f c] l IH]; intros i st H.
  - injection H as <-; reflexivity.
  - apply entries_loop_returns_cons in H; destruct H as (st1 & H1 & H2).
    rewrite (IH _ _ H2); eapply entry_step_slugs, H1.
Qed.

Lemma entries_loop_ok i l st st' :
  snd (entries_loop i l st) = Returns st' -> batch_ok st -> batch_ok st'.
Proof.
  revert i st; induction l as [|[f c] l IH]; intros i st H K.
  - injection H as <-; exact K.
  - apply entries_loop_returns_cons in H; destruct H as (st1 & H1 & H2).
    eapply IH; [exact H2|eapply entry_step_ok; eauto].
Qed.


(** The Markdown results are those of the entries that have a record. *)
Lemma entries_loop_results i l st st' :
  snd (entries_loop i l st) = Returns st' ->
  map filename (results st')
  = map filename (results st)
      ++ map md_name (filter (fun e => has_record (metadata_store st) (fst e)) l).
Proof.
  revert i st; induction l as [|[f c] l IH]; intros i st H.
  - injection H as <-; cbn; now rewrite app_nil_r.
  - apply entries_loop_returns_cons in H; destruct H as (st1 & H1 & H2).
    rewrite (IH _ _ H2); cbn [filter fst].
    rewrite (filter_ext _ (fun e => has_record (metadata_store st) (fst e)))
      by (intros e; apply has_record_slugs; eapply entry_step_slugs, H1).
    apply entry_step_returns in H1.
    destruct H1 as [[-> ->]|(-> & j & am & trc & r & after & _ & _ & R & _)];
      [reflexivity|].
    rewrite R, map_app, <- app_assoc; reflexivity.
Qed.

(** The failures are recorded under the names of entries with a record. *)
Lemma entries_loop_failures i l st st' k :
  snd (entries_loop i l st) = Returns st' ->
  In k (keys (batch_failures st')) ->
  In k (keys (batch_failures st))
  \/ exists e, In e l /\ has_record (metadata_store st) (fst e) = true
                /\ k = md_name e.
Proof.
  revert i st; induction l as [|[f c] l IH]; intros i st H K.
  - injection H as <-; auto.
  - apply entries_loop_returns_cons in H; destruct H as (st1 & H1 & H2).
    pose proof (entry_step_slugs _ _ _ _ _ H1) as S1.
    destruct (IH _ _ H2 K) as [K1|(e & He & Hr & ->)].
    + apply entry_step_returns in H1.
      destruct H1 as [[_ ->]|(Hr & j & am & trc & r & after & _ & _ & _ & _ & F & _)];
        [auto|].
      rewrite F in K1; destruct (0 <? _); [|auto].
      apply keys_set in K1; destruct K1 as [->|K1]; [|auto].
      right; exists (f, c); repeat split; auto; left; reflexivity.
    + right; exists e; repeat split; [right; exact He|].
      rewrite <- Hr; apply has_record_slugs; symmetry; exact S1.
Qed.

Lemma processZipContent_returns htmlFiles metadata :
  snd (processZipContent decodeURIComponent createMarkdownContent envs
         htmlFiles metadata cb)
  = match snd (entries_loop 0 htmlFiles (mkBatch [] [] [] metadata)) with
    | Returns st =>
        Returns (results st ++ map image_result (allImages st),
                 batch_failures st)
    | Throws e => Throws e
    end.
Proof.
  unfold processZipContent.
  rewrite (bind_returns _ (a := tt)) by reflexivity.
  destruct (entries_loop 0 htmlFiles (mkBatch [] [] [] metadata))
    as [t [st|e]]; cbn; reflexivity.
Qed.

Lemma initial_batch_ok metadata : batch_ok (mkBatch [] [] [] metadata).
Proof. repeat split; cbn; try constructor; intros ? []. Qed.

(** C1, as amended.  In the results of a batch whose HTML inputs have
    pairwise distinct slugs, every file name is there once.  As for the
    names derived for the images: the images of one article never collide
    among themselves; the body images of two articles collide only when
    the two base names are the same once cleaned of the characters outside
    [[A-Za-z0-9-]] (and then at equal counters); two thumbnails collide
    only for the same base name; a thumbnail never collides with a body
    image. *)
Theorem result_filenames_unique htmlFiles metadata tr rs fs :
  processZipContent decodeURIComponent createMarkdownContent envs
    htmlFiles metadata cb = (tr, Returns (rs, fs)) ->
  NoDup (map slug_of (keys htmlFiles)) ->
  NoDup (map filename rs)
  /\ (forall base thumbnail ms,
        NoDup (map task_filename (tasks_of base thumbnail ms)))
  /\ (forall base base' n n' m m',
        task_filename (image_task base n m) = task_filename (image_task base' n' m') ->
        Js.keep Js.is_slug_char base = Js.keep Js.is_slug_char base' /\ n = n')
  /\ (forall base base' u u',
        task_filename (thumbnail_task base u) = task_filename (thumbnail_task base' u') ->
        base = base')
  /\ (forall base base' u n m,
        task_filename (thumbnail_task base u) <> task_filename (image_task base' n m)).
Proof.
  intros H N; split;
    [|split; [apply tasks_of_NoDup|];
      split; [apply image_names_equal|];
      split; [apply thumbnail_names_equal|];
      intros; apply thumbnail_name_is_no_image_name].
  apply (f_equal snd) in H; rewrite processZipContent_returns in H; cbn in H.
  destruct (snd (entries_loop 0 htmlFiles (mkBatch [] [] [] metadata)))
    as [st|e] eqn:L; [|discriminate].
  injection H as <- _.
  destruct (entries_loop_ok _ _ _ _ L (initial_batch_ok metadata)) as (K & X & _).
  rewrite map_app, (entries_loop_results _ _ _ _ L), attachment_names.
  cbn [results map app metadata_store].
  apply NoDup_app.
  - apply NoDup_map_filter.
    replace (map md_name htmlFiles)
      with (map (fun s => s +++ ".md") (map slug_of (keys htmlFiles)))
      by (unfold keys; rewrite !map_map; reflexivity).
    apply NoDup_map_injective; [apply md_suffix_inj|exact N].
  - apply NoDup_map_injective; [apply append_inj_l|exact K].
  - intros a Ha Hb; apply in_map_iff in Ha, Hb.
    destruct Ha as (e & <- & _), Hb as (k & E & Hk).
    symmetry in E; revert E; apply md_name_is_no_attachment, X, Hk.
Qed.


End Batch.

(** ** An input without a record *)

Section Orphan.

Variable decodeURIComponent : string -> Decoded.
Variable createMarkdownContent : string -> JsRead -> string.
Variable cb : bool.

Local Abbreviation entries_loop :=
  (process_entries decodeURIComponent createMarkdownContent).
Local Abbreviation batch :=
  (processZipContent decodeURIComponent createMarkdownContent).

(** The loop looks at the surroundings of the entries it converts only. *)
Lemma entries_loop_env (envs1 envs2 : nat -> ArticleEnv) l i1 i2 st :
  (forall k, k < List.length l -> envs1 (i1 + k) = envs2 (i2 + k)) ->
  entries_loop envs1 cb i1 l st = entries_loop envs2 cb i2 l st.
Proof.
  revert i1 i2 st; induction l as [|[f c] l IH]; intros i1 i2 st H;
    [reflexivity|].
  cbn [process_entries].
  assert (E : process_entry decodeURIComponent createMarkdownContent
                envs1 cb i1 (f, c) st
              = process_entry decodeURIComponent createMarkdownContent
                  envs2 cb i2 (f, c) st).
  { unfold process_entry.
    specialize (H 0 (Nat.lt_0_succ _)); rewrite !Nat.add_0_r in H.
    rewrite H; reflexivity. }
  rewrite E.
  destruct (process_entry _ _ envs2 cb i2 (f, c) st) as [t [st1|e]];
    [|reflexivity].
  cbn [bind]; rewrite (IH (S i1) (S i2) st1); [reflexivity|].
  intros k Hk; specialize (H (S k)); cbn in H.
  rewrite !Nat.add_succ_r in H; apply H; lia.
Qed.

Lemma entries_loop_app_trace envs i (l1 l2 : list (string * string)) st :
  fst (entries_loop envs cb i (l1 ++ l2) st)
  = fst (entries_loop envs cb i l1 st)
      ++ match snd (entries_loop envs cb i l1 st) with
         | Returns st1 => fst (entries_loop envs cb (i + List.length l1) l2 st1)
         | Throws _ => []
         end.
Proof.
  revert i st; induction l1 as [|e l1 IH]; intros i st; cbn [app process_entries].
  - cbn; now rewrite Nat.add_0_r.
  - rewrite !bind_trace, <- app_assoc; f_equal.
    destruct (process_entry _ _ envs cb i e st) as [t [st1|err]] eqn:E;
      cbn [snd]; [|reflexivity].
    rewrite (bind_returns _ (a := st1)) by reflexivity.
    rewrite IH; cbn [List.length]; now rewrite Nat.add_succ_r.
Qed.

(** C6.  An HTML input whose slug has no metadata record is skipped: the
    batch returns what it returns without that input (the same results,
    Markdown and images, and the same failures; the inputs behind it are
    processed in the surroundings they had), and whenever the batch
    returns, its log has the warning that names the input. *)
Theorem orphan_is_skipped envs before f c rest metadata :
  has_record metadata f = false ->
  snd (batch envs (before ++ (f, c) :: rest) metadata cb)
  = snd (batch (fun k => if k <? List.length before then envs k else envs (S k))
           (before ++ rest) metadata cb)
  /\ ((exists r, snd (batch envs (before ++ (f, c) :: rest) metadata cb)
                 = Returns r) ->
      In (ProcessLog warning ("No metadata found for " +++ f))
         (fst (batch envs (before ++ (f, c) :: rest) metadata cb))).
Proof.
  intros R.
  set (envs' := fun k => if k <? List.length before then envs k else envs (S k)).
  set (init := mkBatch [] [] [] metadata).
  assert (B : entries_loop envs' cb 0 before init
              = entries_loop envs cb 0 before init).
  { apply entries_loop_env; intros k Hk; cbn; unfold envs'.
    apply Nat.ltb_lt in Hk; now rewrite Hk. }
  assert (O : forall st1,
             snd (entries_loop envs cb 0 before init) = Returns st1 ->
             process_entry decodeURIComponent createMarkdownContent envs cb
               (List.length before) (f, c) st1
             = (ProcessLog info ("Processing file: " +++ slug_of f +++ ".md")
                  :: callback cb (Progress (slug_of f +++ ".md") None)
                  ++ [ProcessLog warning ("No metadata found for " +++ f);
                      ConsoleWarn ("No metadata found for " +++ f)],
                Returns st1)).
  { intros st1 H1; apply process_entry_orphan.
    pose proof (entries_loop_slugs _ _ _ _ _ _ _ _ H1) as S1.
    pose proof (has_record_slugs _ _ f S1) as E; cbn in E.
    unfold has_record in E, R.
    destruct (find_metadata (slug_of f) (metadata_store st1)); [|reflexivity].
    destruct (find_metadata (slug_of f) metadata); discriminate. }
  split.
  - rewrite !processZipContent_returns; fold init.
    rewrite !process_entries_app, B.
    destruct (snd (entries_loop envs cb 0 before init)) as [st1|e] eqn:H1;
      [|reflexivity].
    cbn [Nat.add process_entries].
    rewrite (O st1 eq_refl).
    rewrite (bind_returns _ (a := st1)) by reflexivity.
    rewrite (entries_loop_env envs envs' rest (S (List.length before))
               (List.length before) st1); [reflexivity|].
    intros k _; unfold envs'.
    replace (List.length before + k <? List.length before) with false
      by (symmetry; apply Nat.ltb_ge; lia).
    reflexivity.
  - intros (r & Hr); rewrite processZipContent_returns in Hr; fold init in Hr.
    unfold processZipContent; fold init.
    rewrite bind_trace; cbn [emit fst snd]; apply in_or_app; right.
    rewrite bind_trace; apply in_or_app; left.
    rewrite entries_loop_app_trace; apply in_or_app; right.
    rewrite process_entries_app in Hr.
    destruct (snd (entries_loop envs cb 0 before init)) as [st1|e] eqn:H1;
      [|discriminate].
    cbn [Nat.add process_entries].
    rewrite bind_trace, (O st1 eq_refl); cbn [fst].
    apply in_or_app; left; right.
    apply in_or_app; right; left; reflexivity.
Qed.

End Orphan.


(** C6, witness: an input without a record between two articles. *)
Lemma orphan_is_skipped_witness :
  snd (processZipContent Examples.decodeURIComponent_ascii
         Examples.converted_as_is Examples.served Examples.with_orphan
         [Examples.record "a"; Examples.record "b"] true)
  = snd (processZipContent Examples.decodeURIComponent_ascii
           Examples.converted_as_is
           (fun k => if k <? 1 then Examples.served k else Examples.served (S k))
           [("a.html", Examples.picture); ("b.html", Examples.picture)]
           [Examples.record "a"; Examples.record "b"] true)
  /\ In (ProcessLog warning "No metadata found for orphan.html")
        (fst (processZipContent Examples.decodeURIComponent_ascii
                Examples.converted_as_is Examples.served Examples.with_orphan
                [Examples.record "a"; Examples.record "b"] true)).
Proof.
  destruct (orphan_is_skipped Examples.decodeURIComponent_ascii
              Examples.converted_as_is true Examples.served
              [("a.html", Examples.picture)] "orphan.html" "text"
              [("b.html", Examples.picture)]
              [Examples.record "a"; Examples.record "b"] eq_refl) as [H1 H2].
  split; [exact H1|apply H2; eexists; reflexivity].
Defined.


(** C1, witness: two articles with one image each. *)
Lemma result_filenames_unique_witness :
  exists tr rs fs,
    processZipContent Examples.decodeURIComponent_ascii
      Examples.converted_as_is Examples.served Examples.with_orphan
      [Examples.record "a"; Examples.record "b"] true
    = (tr, Returns (rs, fs))
    /\ map filename rs
       = ["a.md"; "b.md"; "attachments/a-1.png"; "attachments/b-1.png"]
    /\ NoDup (map filename rs).
Proof.
  do 3 eexists; split; [reflexivity|]; split; [reflexivity|].
  refine (proj1 (result_filenames_unique
                   Examples.decodeURIComponent_ascii Examples.converted_as_is
                   Examples.served true Examples.with_orphan
                   [Examples.record "a"; Examples.record "b"] _ _ _
                   eq_refl _)).
  repeat constructor; cbn; intuition discriminate.
Defined.

(** C1, counterexample.  The slugs [a_b] and [ab] differ, and the first
    image of either article is named [ab-1.png]: both documents are
    rewritten to that name and the batch has one attachment for the two
    images, with the bytes of the second.  And two inputs of the same base
    name give two results of the same file name. *)
Lemma distinct_slugs_can_collide :
  "a_b" <> "ab"
  /\ task_filename (image_task "a_b" 1 "https://x/y.png") = "ab-1.png"
  /\ task_filename (image_task "ab" 1 "https://x/y.png") = "ab-1.png"
  /\ snd (processZipContent Examples.decodeURIComponent_ascii
            Examples.converted_as_is Examples.served Examples.underscore_apart
            [Examples.record "a_b"; Examples.record "ab"] true)
     = Returns
         ([mkResult "a_b.md"
             (Text (front_matter (Examples.record "a_b")
                      +++ "![](./attachments/ab-1.png)")) None;
           mkResult "ab.md"
             (Text (front_matter (Examples.record "ab")
                      +++ "![](./attachments/ab-1.png)")) None;
           mkResult "attachments/ab-1.png" (Binary Examples.bytes456) (Some true)],
          [])
  /\ (exists tr rs fs,
        processZipContent Examples.decodeURIComponent_ascii
          Examples.converted_as_is Examples.served Examples.same_base_name
          [Examples.record "a"] true
        = (tr, Returns (rs, fs))
        /\ map filename rs = ["a.md"; "a.md"]
        /\ ~ NoDup (map filename rs)).
Proof.
  split; [discriminate|]; do 3 (split; [reflexivity|]).
  do 3 eexists; split; [reflexivity|]; split; [reflexivity|].
  intros N; inversion N as [|? ? X _]; apply X; left; reflexivity.
Qed.


(** ** When the batch returns *)

Section Totality.

Variable decodeURIComponent : string -> Decoded.
Variable createMarkdownContent : string -> JsRead -> string.
Variable envs : nat -> ArticleEnv.
Variable cb : bool.

Local Abbreviation process := (processMarkdownImages decodeURIComponent).
Local Abbreviation convert :=
  (convertHtmlToMarkdown decodeURIComponent createMarkdownContent).
Local Abbreviation entries_loop :=
  (process_entries decodeURIComponent createMarkdownContent envs cb).

(** The conversion of an article returns exactly when the thumbnail of its
    record is well typed. *)
Lemma convert_returns_iff env htmlContent url m :
  (exists tr r, convert env htmlContent url (Some m) cb = (tr, Returns r))
  <-> thumbnail_typed m.
Proof.
  unfold thumbnail_typed.
  rewrite <- (processMarkdownImages_throws decodeURIComponent env
                (front_matter m +++ createMarkdownContent htmlContent url)
                (slug_or_untitled (Some m) +++ ".md") (Some m) cb).
  unfold convertHtmlToMarkdown, bind, emitProcessLog, emit, ret.
  destruct (processMarkdownImages _ _ _ _ _ _) as [t [r|e]]; cbn; split;
    intros (tr & x & H); try discriminate; eauto.
Qed.

Lemma fold_metadata_typed env total l acc :
  (forall m, metadata_of (snd acc) = Some m -> thumbnail_typed m) ->
  forall m,
    metadata_of
      (snd (fold_left
              (fun acc it => run_task decodeURIComponent env total it acc)
              l acc)) = Some m ->
    thumbnail_typed m.
Proof.
  revert acc; induction l as [|[i t] l IH]; intros acc H; cbn [fold_left];
    [exact H|].
  apply IH; intros m; rewrite run_task_state, settle_metadata.
  destruct (snd (downloadImage _ _ _)) as [[b|]|e]; try apply H.
  destruct (task_match t); [apply H|].
  destruct (metadata_of (snd acc)) as [m0|]; [|discriminate].
  intros [= <-] _; rewrite get_set_same; eauto.
Qed.

Lemma convert_keeps_typed env htmlContent url m tr r m' :
  convert env htmlContent url (Some m) cb = (tr, Returns (r, Some m')) ->
  thumbnail_typed m -> thumbnail_typed m'.
Proof.
  intros H T; apply convert_returns in H; destruct H as (tr' & H).
  apply processMarkdownImages_returns in H; cbn zeta in H.
  destruct H as (_ & _ & H); symmetry in H; revert H; unfold run_tasks.
  apply fold_metadata_typed; cbn; intros ? [= <-]; exact T.
Qed.

Lemma write_back_Forall {A} (P : A -> Prop) j x (l : list A) :
  P x -> Forall P l -> Forall P (write_back j x l).
Proof.
  intros Hx H; revert j; induction H as [|y l Hy H IH]; intros [|j]; cbn;
    constructor; auto.
Qed.

(** A batch whose records have well typed thumbnails returns. *)
Lemma processZipContent_total htmlFiles metadata :
  Forall thumbnail_typed metadata ->
  exists r,
    snd (processZipContent decodeURIComponent createMarkdownContent envs
           htmlFiles metadata cb) = Returns r.
Proof.
  intros T; rewrite processZipContent_returns.
  assert (G : forall l i st,
             Forall thumbnail_typed (metadata_store st) ->
             exists st', snd (entries_loop i l st) = Returns st').
  { induction l as [|[f c] l IH]; intros i st F; [eexists; reflexivity|].
    cbn [process_entries].
    assert (S1 : exists st1,
               snd (process_entry decodeURIComponent createMarkdownContent
                      envs cb i (f, c) st) = Returns st1
               /\ Forall thumbnail_typed (metadata_store st1)).
    { destruct (find_metadata (slug_of f) (metadata_store st))
        as [[j am]|] eqn:E.
      - rewrite (process_entry_matched _ _ _ _ _ _ _ _ _ _ E).
        assert (Tam : thumbnail_typed am).
        { rewrite Forall_forall in F; eapply F, nth_error_In.
          eapply find_metadata_nth, E. }
        destruct (proj2 (convert_returns_iff (envs i) c (get "url" am) am) Tam)
          as (tr & [r after] & C).
        rewrite C; cbn [snd]; eexists; split; [reflexivity|].
        cbn [metadata_store]; destruct after as [m'|]; [|exact F].
        apply write_back_Forall; [|exact F].
        eapply convert_keeps_typed; eauto.
      - rewrite (process_entry_orphan _ _ _ _ _ _ _ _ E); cbn [snd]; eauto. }
    destruct S1 as (st1 & S1 & F1).
    rewrite (bind_returns _ S1); apply IH, F1. }
  destruct (G htmlFiles 0 (mkBatch [] [] [] metadata) T) as (st' & ->).
  eexists; reflexivity.
Qed.

End Totality.
